(** * kube-state-metrics: the limitrange and componentstatus collectors

    A shallow embedding of [collectors/limitrange.go] and of the
    componentstatus collector of package [collectors], together with the
    properties their specification states about them.

    Layout: the IEEE-754 numbers the samples carry, the Go, Kubernetes and
    Prometheus values the collectors handle, a small monad for the effects
    of a scrape, the two collectors, and then the theorems. *)

From Stdlib Require Import ZArith Lia QArith Qabs Qpower.
From Stdlib Require Import Floats.SpecFloat.
From stdpp Require Import gmap strings list fin_maps.

Local Open Scope string_scope.
Local Open Scope list_scope.

(* ================================================================== *)
(** * Part I: definitions *)
(* ================================================================== *)

(** ** float64

    Go's [float64] is IEEE-754 binary64.  It is modelled by the Standard
    Library's executable specification of binary floating point
    ([spec_float]) at precision 53 and maximal exponent 1024, rounding
    to nearest, ties to even. *)
Module Float64.

Definition prec : Z := 53.
Definition emax : Z := 1024.

(** [float64(x)] for an integer [x]: the nearest binary64. *)
Definition of_int (z : Z) : spec_float := binary_normalize prec emax z 0 false.

(** [x / y] on float64. *)
Definition div (x y : spec_float) : spec_float := SFdiv prec emax x y.

(** An integer as an unrounded mantissa with exponent 0. *)
Definition exact_int (z : Z) : spec_float :=
  match z with
  | Z0 => S754_zero false
  | Zpos p => S754_finite false p 0
  | Zneg p => S754_finite true p 0
  end.

(** The quotient of two integers taken at full precision and rounded only
    once, when it becomes a binary64: what the specification asks of a
    fixed-point conversion. *)
Definition round_quot (n d : Z) : spec_float :=
  SFdiv prec emax (exact_int n) (exact_int d).

(** The rational a finite float denotes. *)
Definition SF2Q (f : spec_float) : option Q :=
  match f with
  | S754_zero _ => Some 0%Q
  | S754_finite s m e => Some (inject_Z (cond_Zopp s (Zpos m)) * Qpower 2 e)%Q
  | _ => None
  end.

Definition represents (f : spec_float) (q : Q) : Prop :=
  match SF2Q f with
  | Some v => (v == q)%Q
  | None => False
  end.

(** Distance between the rational a float denotes and [n / d]. *)
Definition dist_to_quot (f : spec_float) (n d : Z) : option Q :=
  match SF2Q f with
  | Some v => Some (Qabs (v - (n # Z.to_pos d)))%Q
  | None => None
  end.

(** The mantissa of a positive integer of at most 53 bits once it is
    shifted left to fill the 53 bits of a normal binary64. *)
Definition normal_mantissa (m : positive) : positive :=
  match (Zpos (digits2_pos m) - 53)%Z with
  | Zneg d => Pos.iter xO m d
  | _ => m
  end.

Definition one : spec_float := of_int 1.
Definition zero : spec_float := S754_zero false.

End Float64.

(** ** Go values *)

(** A Go [error]: [None] is [nil]. *)
Definition error : Type := option string.

(** Wrap-around of [int64] arithmetic. *)
Definition wrap64 (z : Z) : Z := ((z + 2 ^ 63) mod 2 ^ 64 - 2 ^ 63)%Z.

(** [metav1.Time] wraps Go's [time.Time]; the collectors use its [IsZero]
    and [Unix] methods only.  A time is held as Go holds it: the seconds
    elapsed since January 1, year 1 00:00:00 UTC and the nanoseconds
    within that second. *)
Module metav1.

Record Time : Type := { sec : Z; nsec : Z }.

Definition unixToInternal : Z :=
  ((1969 * 365 + 1969 / 4 - 1969 / 100 + 1969 / 400) * 86400)%Z.
Definition internalToUnix : Z := (- unixToInternal)%Z.

(** [t.IsZero()]: the zero time instant, January 1, year 1, 00:00:00 UTC. *)
Definition IsZero (t : Time) : bool := (sec t =? 0)%Z && (nsec t =? 0)%Z.

(** [t.Unix()]: seconds since January 1, 1970 UTC, an [int64]. *)
Definition Unix (t : Time) : Z := wrap64 (sec t + internalToUnix).

Record ObjectMeta : Type := {
  Name : string;
  Namespace : string;
  CreationTimestamp : Time
}.

End metav1.

(** ** [k8s.io/api/core/v1] *)
Module v1.

(** [resource.Quantity], seen through [MilliValue()], an [int64]. *)
Record Quantity : Type := { MilliValue : Z }.

(** [ResourceList] is [map[ResourceName]resource.Quantity]; a nil map is
    the empty map. *)
Abbreviation ResourceList := (gmap string Quantity).

Record LimitRangeItem : Type := {
  limit_Type : string;
  Max : ResourceList;
  Min : ResourceList;
  Default : ResourceList;
  DefaultRequest : ResourceList;
  MaxLimitRequestRatio : ResourceList
}.

Record LimitRangeSpec : Type := { Limits : list LimitRangeItem }.

Record LimitRange : Type := {
  lr_meta : metav1.ObjectMeta;
  Spec : LimitRangeSpec
}.

Record LimitRangeList : Type := { lr_Items : list LimitRange }.

(** [ComponentConditionType] and [ConditionStatus] are string types. *)
Definition ComponentHealthy : string := "Healthy".
Definition ConditionTrue : string := "True".
Definition ConditionFalse : string := "False".
Definition ConditionUnknown : string := "Unknown".

Record ComponentCondition : Type := {
  cond_Type : string;
  Status : string;
  Message : string;
  Error : string
}.

Record ComponentStatus : Type := {
  cs_meta : metav1.ObjectMeta;
  Conditions : list ComponentCondition
}.

Record ComponentStatusList : Type := { cs_Items : list ComponentStatus }.

End v1.

(** ** [k8s.io/client-go/tools/cache]

    A shared informer at one instant: the objects its store holds, in the
    order [GetStore().List()] returns them, and whether its first full
    list has been delivered ([HasSynced()]).  The store of an informer
    built for one object type holds objects of that type only. *)
Module cache.

Record SharedInformer (T : Type) : Type := {
  GetStore_List : list T;
  HasSynced : bool
}.
Arguments GetStore_List {T} _.
Arguments HasSynced {T} _.

End cache.

(** ** [prometheus] *)
Module prometheus.

Record Desc : Type := {
  fqName : string;
  help : string;
  variableLabels : list string
}.

Definition NewDesc (fqName help : string) (variableLabels : list string) : Desc :=
  {| fqName := fqName; help := help; variableLabels := variableLabels |}.

Inductive ValueType : Type := CounterValue | GaugeValue | UntypedValue.

(** A constant metric, as [NewConstMetric] builds it. *)
Record Metric : Type := {
  desc : Desc;
  valType : ValueType;
  val : spec_float;
  labelValues : list string
}.

End prometheus.

(** ** Effects of a scrape

    What a collector does to the world, in the order it does it: it bumps
    the scrape-error counter of a resource kind, records an observation in
    the resources-per-scrape summary of a kind, sends a metric on the
    channel it was given, and logs. *)
Inductive Severity : Type := INFO | ERROR.

Inductive LogArg : Type :=
| ArgInt (n : Z)
| ArgError (e : string).

Inductive Event : Type :=
| EvScrapeError (resource : string)
| EvObserve (resource : string) (v : spec_float)
| EvSend (m : prometheus.Metric)
| EvLog (sev : Severity) (format : string) (args : list LogArg).

Inductive Outcome (A : Type) : Type :=
| Ok (a : A)
| Panic (msg : string).
Arguments Ok {A} a.
Arguments Panic {A} msg.

(** The result of running a piece of code: how it ended, how many map
    iterations the runtime has started so far, and the events it caused,
    oldest first. *)
Record Run (A : Type) : Type := {
  outcome : Outcome A;
  ticks : nat;
  trace : list Event
}.
Arguments outcome {A} _.
Arguments ticks {A} _.
Arguments trace {A} _.
Arguments Build_Run {A} _ _ _.

(** Code runs from the number of map iterations started before it. *)
Definition M (A : Type) : Type := nat -> Run A.

#[export] Instance M_ret : MRet M :=
  fun A a k => {| outcome := Ok a; ticks := k; trace := [] |}.

#[export] Instance M_bind : MBind M :=
  fun A B f m k =>
    let r := m k in
    match outcome r with
    | Panic msg => {| outcome := Panic msg; ticks := ticks r; trace := trace r |}
    | Ok a =>
        let r' := f a (ticks r) in
        {| outcome := outcome r'; ticks := ticks r'; trace := trace r ++ trace r' |}
    end.

Definition emit (e : Event) : M unit :=
  fun k => {| outcome := Ok tt; ticks := k; trace := [e] |}.

Definition panic {A : Type} (msg : string) : M A :=
  fun k => {| outcome := Panic msg; ticks := k; trace := [] |}.

(** Go leaves the order in which [range] visits a map unspecified, and
    the runtime picks a fresh one each time an iteration starts.  A
    runtime is any such choice: the order of the [k]-th iteration it
    starts, over map [m], is some arrangement of the entries of [m]. *)
Record GoRuntime : Type := {
  mapiter : nat -> v1.ResourceList -> list (string * v1.Quantity);
  mapiter_perm : forall k m, mapiter k m ≡ₚ map_to_list m
}.

(** [for key, value := range m]: the entries in the order the runtime
    picks for this iteration. *)
Definition range_map (rt : GoRuntime) (m : v1.ResourceList) : M (list (string * v1.Quantity)) :=
  fun k => {| outcome := Ok (mapiter rt k m); ticks := S k; trace := [] |}.

Inductive LoopCtl : Type := Next | Break.

(** [for _, a := range l { body }] over a slice. *)
Fixpoint for_range {A : Type} (l : list A) (body : A -> M LoopCtl) : M unit :=
  match l with
  | [] => mret tt
  | a :: l' =>
      c ← body a;
      match c with
      | Break => mret tt
      | Next => for_range l' body
      end
  end.

(** *** Reading a trace *)

Definition sent (tr : list Event) : list prometheus.Metric :=
  omap (fun e => match e with EvSend m => Some m | _ => None end) tr.

Definition is_send (e : Event) : Prop :=
  match e with EvSend _ => True | _ => False end.

Definition observations (resource : string) (tr : list Event) : list spec_float :=
  omap (fun e => match e with
                 | EvObserve r v => if String.eqb r resource then Some v else None
                 | _ => None
                 end) tr.

Definition scrape_errors (resource : string) (tr : list Event) : nat :=
  length (omap (fun e => match e with
                         | EvScrapeError r => if String.eqb r resource then Some tt else None
                         | _ => None
                         end) tr).

(** *** The package-level scrape statistics and the Prometheus calls *)

(** Modelled from the spec: [ScrapeErrorTotalMetric] and
    [ResourcesPerScrapeMetric] are package-level variables declared
    outside the two files at hand; the specification has them as "two
    process-wide families, one counter of scrape errors labeled by
    resource kind, one observation of objects-returned-per-scrape labeled
    by resource kind".  Bumping the one and observing into the other are
    events of the run.

    [ScrapeErrorTotalMetric.With(prometheus.Labels{"resource": r}).Inc()] *)
Definition ScrapeErrorTotalMetric_Inc (resource : string) : M unit :=
  emit (EvScrapeError resource).

(** [ResourcesPerScrapeMetric.With(prometheus.Labels{"resource": r}).Observe(v)] *)
Definition ResourcesPerScrapeMetric_Observe (resource : string) (v : spec_float) : M unit :=
  emit (EvObserve resource v).

Definition glog_Errorf (format : string) (args : list LogArg) : M unit :=
  emit (EvLog ERROR format args).

Definition glog_Infof (format : string) (args : list LogArg) : M unit :=
  emit (EvLog INFO format args).

(** [ch <- m] *)
Definition send (m : prometheus.Metric) : M unit := emit (EvSend m).

(** [prometheus.MustNewConstMetric]: panics when the number of label
    values is not the number of variable labels of the descriptor. *)
Definition MustNewConstMetric (d : prometheus.Desc) (t : prometheus.ValueType)
    (v : spec_float) (lv : list string) : M prometheus.Metric :=
  if (length (prometheus.variableLabels d) =? length lv)%nat
  then mret {| prometheus.desc := d; prometheus.valType := t;
               prometheus.val := v; prometheus.labelValues := lv |}
  else panic "inconsistent label cardinality".

(** Modelled from the spec: [boolFloat64] is a helper of package
    [collectors] defined outside the two files at hand; the specification
    has a condition expanded into gauges "exactly one of which is 1, the
    rest 0", so a true comparison becomes 1 and a false one 0. *)
Definition boolFloat64 (b : bool) : spec_float :=
  if b then Float64.one else Float64.zero.

(** ** The limitrange collector ([collectors/limitrange.go]) *)
Module limitrange.
Import metav1 v1 prometheus.

Definition descLimitRange : Desc :=
  NewDesc "kube_limitrange" "Information about limit range."
    ["limitrange"; "namespace"; "resource"; "type"; "constraint"].

Definition descLimitRangeCreated : Desc :=
  NewDesc "kube_limitrange_created" "Unix creation timestamp"
    ["limitrange"; "namespace"].

(** [type LimitRangeLister func() (v1.LimitRangeList, error)] *)
Definition LimitRangeLister : Type := unit -> LimitRangeList * error.

(** [type limitRangeStore interface { List() (v1.LimitRangeList, error) }] *)
Class limitRangeStore (S : Type) : Type :=
  store_List : S -> LimitRangeList * error.

#[global] Instance LimitRangeLister_List : limitRangeStore LimitRangeLister :=
  fun l => l tt.

Record limitRangeCollector (S : Type) : Type := { store : S }.
Arguments store {S} _.

(** The closure [RegisterLimitRangeCollector] builds over the informer
    [rqinf]: it appends every object of the informer's store to
    [ranges.Items] and returns [ranges, nil]. *)
Definition limitRangeLister (rqinf : cache.SharedInformer LimitRange) : LimitRangeLister :=
  fun _ =>
    (fold_left (fun ranges rq => {| lr_Items := lr_Items ranges ++ [rq] |})
       (cache.GetStore_List rqinf) {| lr_Items := [] |},
     None).

(** [RegisterLimitRangeCollector], as far as the collector it registers
    goes; [rqinf] is the informer it creates, at the instant of a scrape. *)
Definition RegisterLimitRangeCollector (rqinf : cache.SharedInformer LimitRange)
  : limitRangeCollector LimitRangeLister :=
  {| store := limitRangeLister rqinf |}.

Definition Describe : list Desc := [descLimitRange; descLimitRangeCreated].

Section Collect.
Context (rt : GoRuntime).

(** The [addGauge] closure of [collectLimitRange]. *)
Definition addGauge (rq : LimitRange) (desc : Desc) (v : spec_float) (lv : list string) : M unit :=
  let lv := [Name (lr_meta rq); Namespace (lr_meta rq)] ++ lv in
  m ← MustNewConstMetric desc GaugeValue v lv;
  send m.

Definition collectLimitRange (rq : LimitRange) : M unit :=
  (if negb (IsZero (CreationTimestamp (lr_meta rq)))
   then addGauge rq descLimitRangeCreated
          (Float64.of_int (Unix (CreationTimestamp (lr_meta rq)))) []
   else mret tt);;
  let rawLimitRanges := Limits (Spec rq) in
  for_range rawLimitRanges (fun rawLimitRange =>
    kvs ← range_map rt (Min rawLimitRange);
    for_range kvs (fun '(resource, min) =>
      addGauge rq descLimitRange
        (Float64.div (Float64.of_int (MilliValue min)) (Float64.of_int 1000))
        [resource; limit_Type rawLimitRange; "min"];;
      mret Next);;
    kvs ← range_map rt (Max rawLimitRange);
    for_range kvs (fun '(resource, max) =>
      addGauge rq descLimitRange
        (Float64.div (Float64.of_int (MilliValue max)) (Float64.of_int 1000))
        [resource; limit_Type rawLimitRange; "max"];;
      mret Next);;
    kvs ← range_map rt (Default rawLimitRange);
    for_range kvs (fun '(resource, df) =>
      addGauge rq descLimitRange
        (Float64.div (Float64.of_int (MilliValue df)) (Float64.of_int 1000))
        [resource; limit_Type rawLimitRange; "default"];;
      mret Next);;
    kvs ← range_map rt (DefaultRequest rawLimitRange);
    for_range kvs (fun '(resource, dfR) =>
      addGauge rq descLimitRange
        (Float64.div (Float64.of_int (MilliValue dfR)) (Float64.of_int 1000))
        [resource; limit_Type rawLimitRange; "defaultRequest"];;
      mret Next);;
    kvs ← range_map rt (MaxLimitRequestRatio rawLimitRange);
    for_range kvs (fun '(resource, mLR) =>
      addGauge rq descLimitRange
        (Float64.div (Float64.of_int (MilliValue mLR)) (Float64.of_int 1000))
        [resource; limit_Type rawLimitRange; "maxLimitRequestRatio"];;
      mret Next);;
    mret Next).

(** The body of the loop over [rq.Spec.Limits] in [collectLimitRange],
    on its own. *)
Definition item_body (rq : LimitRange) (rawLimitRange : LimitRangeItem) : M LoopCtl :=
  kvs ← range_map rt (Min rawLimitRange);
  for_range kvs (fun '(resource, min) =>
    addGauge rq descLimitRange
      (Float64.div (Float64.of_int (MilliValue min)) (Float64.of_int 1000))
      [resource; limit_Type rawLimitRange; "min"];;
    mret Next);;
  kvs ← range_map rt (Max rawLimitRange);
  for_range kvs (fun '(resource, max) =>
    addGauge rq descLimitRange
      (Float64.div (Float64.of_int (MilliValue max)) (Float64.of_int 1000))
      [resource; limit_Type rawLimitRange; "max"];;
    mret Next);;
  kvs ← range_map rt (Default rawLimitRange);
  for_range kvs (fun '(resource, df) =>
    addGauge rq descLimitRange
      (Float64.div (Float64.of_int (MilliValue df)) (Float64.of_int 1000))
      [resource; limit_Type rawLimitRange; "default"];;
    mret Next);;
  kvs ← range_map rt (DefaultRequest rawLimitRange);
  for_range kvs (fun '(resource, dfR) =>
    addGauge rq descLimitRange
      (Float64.div (Float64.of_int (MilliValue dfR)) (Float64.of_int 1000))
      [resource; limit_Type rawLimitRange; "defaultRequest"];;
    mret Next);;
  kvs ← range_map rt (MaxLimitRequestRatio rawLimitRange);
  for_range kvs (fun '(resource, mLR) =>
    addGauge rq descLimitRange
      (Float64.div (Float64.of_int (MilliValue mLR)) (Float64.of_int 1000))
      [resource; limit_Type rawLimitRange; "maxLimitRequestRatio"];;
    mret Next);;
  mret Next.

Definition Collect {S : Type} `{!limitRangeStore S} (lrc : limitRangeCollector S) : M unit :=
  let '(limitRanges, err) := store_List (store lrc) in
  match err with
  | Some e =>
      ScrapeErrorTotalMetric_Inc "limitrange";;
      glog_Errorf "listing limit ranges failed: %s" [ArgError e]
  | None =>
      ResourcesPerScrapeMetric_Observe "limitrange"
        (Float64.of_int (Z.of_nat (length (lr_Items limitRanges))));;
      for_range (lr_Items limitRanges) (fun rq => collectLimitRange rq;; mret Next);;
      glog_Infof "collected %d limitranges"
        [ArgInt (Z.of_nat (length (lr_Items limitRanges)))]
  end.

End Collect.

(** *** What a LimitRange is expected to yield *)

Inductive Constraint : Type :=
| CMin | CMax | CDefault | CDefaultRequest | CMaxLimitRequestRatio.

Definition all_constraints : list Constraint :=
  [CMin; CMax; CDefault; CDefaultRequest; CMaxLimitRequestRatio].

Definition constraint_label (c : Constraint) : string :=
  match c with
  | CMin => "min"
  | CMax => "max"
  | CDefault => "default"
  | CDefaultRequest => "defaultRequest"
  | CMaxLimitRequestRatio => "maxLimitRequestRatio"
  end.

Definition constraint_map (c : Constraint) (item : LimitRangeItem) : ResourceList :=
  match c with
  | CMin => Min item
  | CMax => Max item
  | CDefault => Default item
  | CDefaultRequest => DefaultRequest item
  | CMaxLimitRequestRatio => MaxLimitRequestRatio item
  end.

Definition gauge (rq : LimitRange) (d : Desc) (v : spec_float) (lv : list string) : Metric :=
  {| desc := d; valType := GaugeValue; val := v;
     labelValues := [Name (lr_meta rq); Namespace (lr_meta rq)] ++ lv |}.

(** The conversion the code performs: [float64(m) / 1000]. *)
Definition code_units (m : Z) : spec_float :=
  Float64.div (Float64.of_int m) (Float64.of_int 1000).

(** The conversion the specification words: the milli-unit integer
    divided by 1000 at full precision, rounded only when it becomes a
    float64. *)
Definition spec_units (m : Z) : spec_float := Float64.round_quot m 1000.

Definition entry_sample (conv : Z -> spec_float) (rq : LimitRange)
    (item : LimitRangeItem) (c : Constraint) (kv : string * Quantity) : Metric :=
  gauge rq descLimitRange (conv (MilliValue kv.2))
    [kv.1; limit_Type item; constraint_label c].

(** One [kube_limitrange] sample per constraint entry of the object. *)
Definition limit_samples (conv : Z -> spec_float) (rq : LimitRange) : list Metric :=
  item ← Limits (Spec rq);
  c ← all_constraints;
  entry_sample conv rq item c <$> map_to_list (constraint_map c item).

Definition created_samples (rq : LimitRange) : list Metric :=
  if IsZero (CreationTimestamp (lr_meta rq)) then []
  else [gauge rq descLimitRangeCreated
          (Float64.of_int (Unix (CreationTimestamp (lr_meta rq)))) []].

(** What one object sends, whatever the order of its map entries. *)
Definition object_samples (rq : LimitRange) : list Metric :=
  created_samples rq ++ limit_samples code_units rq.

(** The samples of one limit item, in the order of the source's loops. *)
Definition item_samples (conv : Z -> spec_float) (rq : LimitRange)
    (item : LimitRangeItem) : list Metric :=
  c ← all_constraints;
  entry_sample conv rq item c <$> map_to_list (constraint_map c item).

(** The specification's conversion for every milli-unit value that fits
    the 53 bits of a float64 mantissa, the code's for the others. *)
Definition rounded_once_where_it_fits (m : Z) : spec_float :=
  if (Z.abs m <=? 2 ^ 53)%Z then spec_units m else code_units m.

(** The samples of a snapshot in the order the source fixes: object by
    object; for each object its creation gauge, if any, then limit item by
    limit item, and for each item the five constraint maps in the order
    min, max, default, defaultRequest, maxLimitRequestRatio.  Each block
    holds the samples of one [range] over one map (or the creation
    gauge); only inside a block is the order left to the runtime. *)
Definition item_blocks (rq : LimitRange) (item : LimitRangeItem) : list (list Metric) :=
  (fun c => entry_sample code_units rq item c <$> map_to_list (constraint_map c item))
    <$> all_constraints.

Definition object_blocks (rq : LimitRange) : list (list Metric) :=
  created_samples rq :: (Limits (Spec rq) ≫= item_blocks rq).

Definition snapshot_blocks (l : list LimitRange) : list (list Metric) :=
  l ≫= object_blocks.

(** [ms] is the blocks [blocks] one after the other, each in some order
    of its own. *)
Definition arranged (ms : list Metric) (blocks : list (list Metric)) : Prop :=
  exists bs, ms = concat bs /\ Forall2 (≡ₚ) bs blocks.

(** The blocks a scrape is due, by what the lister returned. *)
Definition due_blocks (res : LimitRangeList * error) : list (list Metric) :=
  match res with
  | (l, None) => snapshot_blocks (lr_Items l)
  | (_, Some _) => []
  end.

(** Every quantity of the object fits the 53 bits of a float64 mantissa. *)
Definition fits_mantissa (rq : LimitRange) : Prop :=
  Forall (fun item =>
    Forall (fun c =>
      map_Forall (fun _ q => (Z.abs (MilliValue q) <= 2 ^ 53)%Z) (constraint_map c item))
      all_constraints)
    (Limits (Spec rq)).

(** *** The events of a run, written out *)

Definition entries_trace (rq : LimitRange) (item : LimitRangeItem)
    (c : Constraint) (kvs : list (string * Quantity)) : list Event :=
  EvSend <$> (entry_sample code_units rq item c <$> kvs).

Definition item_trace (rt : GoRuntime) (rq : LimitRange) (item : LimitRangeItem)
    (k : nat) : list Event :=
  entries_trace rq item CMin (mapiter rt k (Min item))
  ++ entries_trace rq item CMax (mapiter rt (k + 1) (Max item))
  ++ entries_trace rq item CDefault (mapiter rt (k + 2) (Default item))
  ++ entries_trace rq item CDefaultRequest (mapiter rt (k + 3) (DefaultRequest item))
  ++ entries_trace rq item CMaxLimitRequestRatio
       (mapiter rt (k + 4) (MaxLimitRequestRatio item)).

Fixpoint limits_trace (rt : GoRuntime) (rq : LimitRange)
    (items : list LimitRangeItem) (k : nat) : list Event :=
  match items with
  | [] => []
  | item :: rest => item_trace rt rq item k ++ limits_trace rt rq rest (k + 5)
  end.

Definition object_trace (rt : GoRuntime) (rq : LimitRange) (k : nat) : list Event :=
  (EvSend <$> created_samples rq) ++ limits_trace rt rq (Limits (Spec rq)) k.

Definition object_ticks (rq : LimitRange) : nat := 5 * length (Limits (Spec rq)).

Fixpoint objects_trace (rt : GoRuntime) (l : list LimitRange) (k : nat) : list Event :=
  match l with
  | [] => []
  | rq :: rest => object_trace rt rq k ++ objects_trace rt rest (k + object_ticks rq)
  end.

Definition objects_ticks (l : list LimitRange) : nat :=
  foldr (fun rq n => object_ticks rq + n) 0 l.

End limitrange.

(** ** The componentstatus collector *)
Module componentstatus.
Import metav1 v1 prometheus.

Definition descComponentStatusStatusHealthy : Desc :=
  NewDesc "kube_componentstatus_status_healthy"
    "kube component status healthy status." ["name"; "status"].

(** [type ComponentStatusLister func() (v1.ComponentStatusList, error)] *)
Definition ComponentStatusLister : Type := unit -> ComponentStatusList * error.

Class componentStatusStore (S : Type) : Type :=
  store_List : S -> ComponentStatusList * error.

#[global] Instance ComponentStatusLister_List : componentStatusStore ComponentStatusLister :=
  fun csl => csl tt.

Record componentStatusCollector (S : Type) : Type := { store : S }.
Arguments store {S} _.

(** The closure [RegisterComponentStatusCollector] builds over the
    informer [sinf]. *)
Definition componentStatusLister (sinf : cache.SharedInformer ComponentStatus)
  : ComponentStatusLister :=
  fun _ =>
    (fold_left (fun componentStatuses m =>
                  {| cs_Items := cs_Items componentStatuses ++ [m] |})
       (cache.GetStore_List sinf) {| cs_Items := [] |},
     None).

Definition RegisterComponentStatusCollector (sinf : cache.SharedInformer ComponentStatus)
  : componentStatusCollector ComponentStatusLister :=
  {| store := componentStatusLister sinf |}.

Definition Describe : list Desc := [descComponentStatusStatusHealthy].

(** The [addConstMetric] and [addGauge] closures of
    [collectComponentStatus]. *)
Definition addConstMetric (s : ComponentStatus) (desc : Desc) (t : ValueType)
    (v : spec_float) (lv : list string) : M unit :=
  let lv := [Name (cs_meta s)] ++ lv in
  m ← MustNewConstMetric desc t v lv;
  send m.

Definition addGauge (s : ComponentStatus) (desc : Desc) (v : spec_float)
    (lv : list string) : M unit :=
  addConstMetric s desc GaugeValue v lv.

Definition collectComponentStatus (s : ComponentStatus) : M unit :=
  for_range (Conditions s) (fun p =>
    if String.eqb (cond_Type p) ComponentHealthy then
      addGauge s descComponentStatusStatusHealthy
        (boolFloat64 (String.eqb (Status p) ConditionTrue)) [ConditionTrue];;
      addGauge s descComponentStatusStatusHealthy
        (boolFloat64 (String.eqb (Status p) ConditionFalse)) [ConditionFalse];;
      addGauge s descComponentStatusStatusHealthy
        (boolFloat64 (String.eqb (Status p) ConditionUnknown)) [ConditionUnknown];;
      mret Break
    else mret Next).

Definition Collect {S : Type} `{!componentStatusStore S}
    (csc : componentStatusCollector S) : M unit :=
  let '(csl, err) := store_List (store csc) in
  match err with
  | Some e =>
      ScrapeErrorTotalMetric_Inc "componentstatus";;
      glog_Errorf "listing component status failed: %s" [ArgError e]
  | None =>
      ResourcesPerScrapeMetric_Observe "componentstatus"
        (Float64.of_int (Z.of_nat (length (cs_Items csl))));;
      for_range (cs_Items csl) (fun s => collectComponentStatus s;; mret Next);;
      glog_Infof "collected %d componentstatuses"
        [ArgInt (Z.of_nat (length (cs_Items csl)))]
  end.

(** *** What a ComponentStatus is expected to yield *)

Definition is_healthy (p : ComponentCondition) : bool :=
  String.eqb (cond_Type p) ComponentHealthy.

Definition status_gauge (s : ComponentStatus) (v : spec_float) (status : string) : Metric :=
  {| desc := descComponentStatusStatusHealthy; valType := GaugeValue; val := v;
     labelValues := [Name (cs_meta s); status] |}.

Definition healthy_samples (s : ComponentStatus) (p : ComponentCondition) : list Metric :=
  [status_gauge s (boolFloat64 (String.eqb (Status p) ConditionTrue)) ConditionTrue;
   status_gauge s (boolFloat64 (String.eqb (Status p) ConditionFalse)) ConditionFalse;
   status_gauge s (boolFloat64 (String.eqb (Status p) ConditionUnknown)) ConditionUnknown].

(** The first condition of type [ComponentHealthy] decides. *)
Definition status_samples (s : ComponentStatus) : list Metric :=
  match List.find is_healthy (Conditions s) with
  | Some p => healthy_samples s p
  | None => []
  end.

(** The events of the loop over the objects of a snapshot. *)
Definition statuses_trace (l : list ComponentStatus) : list Event :=
  l ≫= fun s => EvSend <$> status_samples s.

(** The object with only its conditions of type [ComponentHealthy]. *)
Definition only_healthy (s : ComponentStatus) : ComponentStatus :=
  {| cs_meta := cs_meta s; Conditions := List.filter is_healthy (Conditions s) |}.

(** The three states of a condition. *)
Definition tri_state (status : string) : Prop :=
  status = ConditionTrue \/ status = ConditionFalse \/ status = ConditionUnknown.

End componentstatus.

(** ** Concrete runtimes and objects *)
Module examples.
Import metav1 v1 prometheus.

(** A runtime that always visits a map in the order of its keys. *)
Definition rt_sorted : GoRuntime :=
  {| mapiter := fun _ m => map_to_list m;
     mapiter_perm := fun _ m => Permutation_refl (map_to_list m) |}.

(** A runtime that visits a map forwards on its even iterations and
    backwards on its odd ones. *)
Definition rt_alternating : GoRuntime :=
  {| mapiter := fun k m =>
       if Nat.even k then map_to_list m else reverse (map_to_list m);
     mapiter_perm := fun k m =>
       match Nat.even k as b
         return (if b then map_to_list m else reverse (map_to_list m)) ≡ₚ map_to_list m
       with
       | true => Permutation_refl (map_to_list m)
       | false => reverse_Permutation (map_to_list m)
       end |}.

Definition quantity (milli : Z) : Quantity := {| MilliValue := milli |}.

Definition meta (name ns : string) (unix : Z) (ns_within : Z) : ObjectMeta :=
  {| Name := name; Namespace := ns;
     CreationTimestamp := {| sec := unix + unixToInternal; nsec := ns_within |} |}.

(** The zero [metav1.Time]. *)
Definition zero_time : Time := {| sec := 0; nsec := 0 |}.

(** A container limit: cpu at least 1500m, memory at least 2. *)
Definition container_limits : LimitRangeItem :=
  {| limit_Type := "Container";
     Max := ∅;
     Min := <["memory" := quantity 2000]> (<["cpu" := quantity 1500]> ∅);
     Default := ∅;
     DefaultRequest := ∅;
     MaxLimitRequestRatio := ∅ |}.

Definition lr_small : LimitRange :=
  {| lr_meta := meta "limits" "default" 1500000000 0;
     Spec := {| Limits := [container_limits] |} |}.

Definition lr_unset : LimitRange :=
  {| lr_meta := {| Name := "limits"; Namespace := "default";
                   CreationTimestamp := zero_time |};
     Spec := {| Limits := [] |} |}.

(** A memory ceiling of 9007199254740.999 bytes, which [MilliValue]
    reports as 9007199254740999. *)
Definition huge_limits : LimitRangeItem :=
  {| limit_Type := "Pod";
     Max := {[ "memory" := quantity 9007199254740999 ]};
     Min := ∅;
     Default := ∅;
     DefaultRequest := ∅;
     MaxLimitRequestRatio := ∅ |}.

Definition lr_huge : LimitRange :=
  {| lr_meta := meta "ceiling" "batch" 1500000000 0;
     Spec := {| Limits := [huge_limits] |} |}.

Definition snapshot_small : limitrange.LimitRangeLister :=
  fun _ => ({| lr_Items := [lr_small] |}, None).

Definition failing_limitranges : limitrange.LimitRangeLister :=
  fun _ => ({| lr_Items := [] |}, Some "cache unavailable").

Definition lrc_small : limitrange.limitRangeCollector limitrange.LimitRangeLister :=
  {| limitrange.store := snapshot_small |}.

Definition lrc_failing : limitrange.limitRangeCollector limitrange.LimitRangeLister :=
  {| limitrange.store := failing_limitranges |}.

Definition healthy (status : string) : ComponentCondition :=
  {| cond_Type := ComponentHealthy; Status := status; Message := "ok"; Error := "" |}.

Definition component (name : string) (conds : list ComponentCondition) : ComponentStatus :=
  {| cs_meta := {| Name := name; Namespace := ""; CreationTimestamp := zero_time |};
     Conditions := conds |}.

Definition scheduler : ComponentStatus := component "scheduler" [healthy "True"].
Definition etcd0 : ComponentStatus := component "etcd-0" [healthy "False"].

Definition snapshot_two : componentstatus.ComponentStatusLister :=
  fun _ => ({| cs_Items := [scheduler; etcd0] |}, None).

Definition failing_components : componentstatus.ComponentStatusLister :=
  fun _ => ({| cs_Items := [] |}, Some "cache unavailable").

Definition csc_two : componentstatus.componentStatusCollector componentstatus.ComponentStatusLister :=
  {| componentstatus.store := snapshot_two |}.

Definition csc_failing : componentstatus.componentStatusCollector componentstatus.ComponentStatusLister :=
  {| componentstatus.store := failing_components |}.

(** An informer whose first list has not been delivered yet and whose
    store holds one of the objects of the cluster so far. *)
Definition unsynced_limitranges : cache.SharedInformer LimitRange :=
  {| cache.GetStore_List := [lr_small]; cache.HasSynced := false |}.

Definition unsynced_components : cache.SharedInformer ComponentStatus :=
  {| cache.GetStore_List := []; cache.HasSynced := false |}.

End examples.

(** ** Reading samples *)

#[global] Instance Desc_eq_dec : EqDecision prometheus.Desc.
Proof. solve_decision. Defined.

(** The samples of one metric family. *)
Definition of_family (d : prometheus.Desc) (ms : list prometheus.Metric)
  : list prometheus.Metric :=
  filter (fun m => prometheus.desc m = d) ms.

Definition arity_ok (m : prometheus.Metric) : Prop :=
  length (prometheus.labelValues m)
  = length (prometheus.variableLabels (prometheus.desc m)).

(** A run that ended normally, from [k] map iterations to [k'], having
    caused the events [tr]. *)
Definition runs {A : Type} (m : M A) (k : nat) (a : A) (k' : nat) (tr : list Event) : Prop :=
  m k = {| outcome := Ok a; ticks := k'; trace := tr |}.

(** A scrape that found its lister failing: it ends normally, the error
    counter of its kind went up by one and no other kind's moved, nothing
    was sent and nothing was observed. *)
Definition failed_scrape (kind : string) (r : Run unit) : Prop :=
  outcome r = Ok tt
  /\ (forall kind', scrape_errors kind' (trace r)
                   = if String.eqb kind kind' then 1%nat else 0%nat)
  /\ sent (trace r) = []
  /\ forall kind', observations kind' (trace r) = [].

(** ** The claims the code does not bear out, as they are worded *)
Module claims.
Import metav1 v1 prometheus.

(** "The lister returns a non-nil error whenever the watch cache has not
    yet synchronized." *)
Definition unsynced_cache_is_an_error : Prop :=
  (forall rqinf : cache.SharedInformer LimitRange,
      cache.HasSynced rqinf = false ->
      snd (limitrange.store_List
             (limitrange.store (limitrange.RegisterLimitRangeCollector rqinf))) <> None)
  /\ (forall sinf : cache.SharedInformer ComponentStatus,
      cache.HasSynced sinf = false ->
      snd (componentstatus.store_List
             (componentstatus.store
                (componentstatus.RegisterComponentStatusCollector sinf))) <> None).

(** "No more than one set of status samples is emitted per scrape." *)
Definition one_expansion_per_scrape : Prop :=
  forall (csc : componentstatus.componentStatusCollector
                  componentstatus.ComponentStatusLister) (k : nat),
    (length (sent (trace (componentstatus.Collect csc k))) <= 3)%nat.

(** "The sample value is the milli-unit value divided by 1000 at full
    precision, with no rounding at intermediate steps." *)
Definition divided_at_full_precision : Prop :=
  forall (rt : GoRuntime) (rq : LimitRange) (k : nat),
    of_family limitrange.descLimitRange
      (sent (trace (limitrange.collectLimitRange rt rq k)))
    ≡ₚ limitrange.limit_samples limitrange.spec_units rq.

(** "Two scrapes in succession of a fixed snapshot send the same samples
    in the same order." *)
Definition second_scrape_in_same_order : Prop :=
  forall (rt : GoRuntime)
         (lrc : limitrange.limitRangeCollector limitrange.LimitRangeLister) (k : nat),
    let first := limitrange.Collect rt lrc k in
    let second := limitrange.Collect rt lrc (ticks first) in
    sent (trace first) = sent (trace second).

End claims.

(** ** Time series and shapes of objects *)
Module shapes.
Import metav1 v1 prometheus.

(** What identifies a time series to Prometheus: the family name and the
    label values (the label names are fixed by the family). *)
Definition series (m : Metric) : string * list string :=
  (fqName (desc m), labelValues m).

(** The label value at position [i], the empty string past the end. *)
Definition label_at (i : nat) (s : string * list string) : string :=
  default "" (s.2 !! i).

(** The first two label values of a series. *)
Definition owner (s : string * list string) : string * string :=
  (label_at 0 s, label_at 1 s).

Definition object_key (rq : LimitRange) : string * string :=
  (Name (lr_meta rq), Namespace (lr_meta rq)).

(** No two limit items of the object have the same type. *)
Definition distinct_types (rq : LimitRange) : Prop :=
  NoDup (limit_Type <$> Limits (Spec rq)).

(** The number of constraint entries of the object. *)
Definition entry_count (rq : LimitRange) : nat :=
  sum_list (item ← Limits (Spec rq);
            c ← limitrange.all_constraints;
            [size (limitrange.constraint_map c item)]).

(** Every constraint map of the object has at most one entry. *)
Definition single_entries (rq : LimitRange) : Prop :=
  Forall (fun item =>
    Forall (fun c => (size (limitrange.constraint_map c item) <= 1)%nat)
      limitrange.all_constraints)
    (Limits (Spec rq)).

(** Every quantity of the object is a whole number of units that fits
    the mantissa of a float64 once in milli-units. *)
Definition whole_units (rq : LimitRange) : Prop :=
  Forall (fun item =>
    Forall (fun c =>
      map_Forall (fun _ q => (MilliValue q mod 1000 = 0)%Z
                             /\ (Z.abs (MilliValue q) <= 2 ^ 53)%Z)
        (limitrange.constraint_map c item))
      limitrange.all_constraints)
    (Limits (Spec rq)).

(** The float64 of the number of whole units. *)
Definition units_of_milli (m : Z) : spec_float := Float64.of_int (m / 1000).

(** What [collectComponentStatus] reads of an object: its name and the
    type and status of each condition. *)
Definition read_of (s : ComponentStatus) : string * list (string * string) :=
  (Name (cs_meta s), (fun p => (cond_Type p, Status p)) <$> Conditions s).

End shapes.

(** ** More concrete objects *)
Module examples2.
Import metav1 v1 prometheus examples.

(** One entry per constraint map at most. *)
Definition pod_limits : LimitRangeItem :=
  {| limit_Type := "Pod";
     Max := {[ "cpu" := quantity 4000 ]};
     Min := {[ "cpu" := quantity 1000 ]};
     Default := ∅;
     DefaultRequest := ∅;
     MaxLimitRequestRatio := ∅ |}.

Definition lr_pod : LimitRange :=
  {| lr_meta := meta "pods" "default" 1500000000 0;
     Spec := {| Limits := [pod_limits] |} |}.

Definition snapshot_pair : limitrange.LimitRangeLister :=
  fun _ => ({| lr_Items := [lr_small; lr_pod] |}, None).

Definition lrc_pair : limitrange.limitRangeCollector limitrange.LimitRangeLister :=
  {| limitrange.store := snapshot_pair |}.

(** A second limit item of type Container. *)
Definition container_floor : LimitRangeItem :=
  {| limit_Type := "Container";
     Max := ∅;
     Min := {[ "cpu" := quantity 100 ]};
     Default := ∅;
     DefaultRequest := ∅;
     MaxLimitRequestRatio := ∅ |}.

Definition lr_twice : LimitRange :=
  {| lr_meta := meta "twice" "default" 1500000000 0;
     Spec := {| Limits := [container_limits; container_floor] |} |}.

(** The scheduler again, with another message and another namespace. *)
Definition scheduler_reworded : ComponentStatus :=
  {| cs_meta := {| Name := "scheduler"; Namespace := "kube-system";
                   CreationTimestamp := zero_time |};
     Conditions := [{| cond_Type := ComponentHealthy; Status := "True";
                       Message := "all good"; Error := "nil" |}] |}.

End examples2.

(* ================================================================== *)
(** * Part II: theorems *)
(* ================================================================== *)

(** ** The monad *)

Lemma runs_ret {A : Type} (a : A) (k : nat) : runs (mret a) k a k [].
Proof. reflexivity. Qed.

Lemma runs_bind {A B : Type} (m : M A) (f : A -> M B) k a k1 t1 b k2 t2 :
  runs m k a k1 t1 -> runs (f a) k1 b k2 t2 -> runs (m ≫= f) k b k2 (t1 ++ t2).
Proof.
  unfold runs, mbind, M_bind. intros -> . simpl. intros ->. reflexivity.
Qed.

Lemma runs_bind_silent {A B : Type} (m : M A) (f : A -> M B) k a k1 b k2 t :
  runs m k a k1 [] -> runs (f a) k1 b k2 t -> runs (m ≫= f) k b k2 t.
Proof. apply (runs_bind m f k a k1 [] b k2 t). Qed.

Lemma runs_then_ret {A B : Type} (m : M A) (b : B) k a k' t :
  runs m k a k' t -> runs (m ≫= fun _ => mret b) k b k' t.
Proof.
  intros H. rewrite <- (app_nil_r t).
  apply (runs_bind m _ k a k' t b k' []); [exact H | reflexivity].
Qed.

Lemma runs_emit (e : Event) (k : nat) : runs (emit e) k tt k [e].
Proof. reflexivity. Qed.

Lemma runs_MustNewConstMetric d t v lv k :
  length (prometheus.variableLabels d) = length lv ->
  runs (MustNewConstMetric d t v lv) k
    {| prometheus.desc := d; prometheus.valType := t;
       prometheus.val := v; prometheus.labelValues := lv |} k [].
Proof.
  intros H. unfold runs, MustNewConstMetric.
  rewrite (proj2 (Nat.eqb_eq _ _) H). reflexivity.
Qed.

(** A loop whose body never breaks and leaves the iteration count alone. *)
Lemma runs_for_range_pure {A : Type} (body : A -> M LoopCtl) (ev : A -> list Event) :
  (forall a k, runs (body a) k Next k (ev a)) ->
  forall l k, runs (for_range l body) k tt k (l ≫= ev).
Proof.
  intros Hbody l. induction l as [|a l IH]; intros k.
  - reflexivity.
  - simpl for_range. eapply runs_bind; [apply Hbody|]. simpl. apply IH.
Qed.

Lemma sent_app (t1 t2 : list Event) : sent (t1 ++ t2) = sent t1 ++ sent t2.
Proof. apply omap_app. Qed.

Lemma sent_sends (ms : list prometheus.Metric) : sent (EvSend <$> ms) = ms.
Proof. induction ms as [|m ms IH]; [reflexivity|]. simpl. f_equal. exact IH. Qed.

Lemma observations_app kind (t1 t2 : list Event) :
  observations kind (t1 ++ t2) = observations kind t1 ++ observations kind t2.
Proof. apply omap_app. Qed.

Lemma observations_sends kind (ms : list prometheus.Metric) :
  observations kind (EvSend <$> ms) = [].
Proof. induction ms as [|m ms IH]; [reflexivity|]. simpl. exact IH. Qed.

Lemma scrape_errors_app kind (t1 t2 : list Event) :
  scrape_errors kind (t1 ++ t2) = (scrape_errors kind t1 + scrape_errors kind t2)%nat.
Proof. unfold scrape_errors. rewrite omap_app, length_app. reflexivity. Qed.

Lemma scrape_errors_sends kind (ms : list prometheus.Metric) :
  scrape_errors kind (EvSend <$> ms) = 0%nat.
Proof. induction ms as [|m ms IH]; [reflexivity|]. simpl. exact IH. Qed.

(** ** float64: conversions of integers of at most 53 bits are exact, and
    dividing such an integer by 1000 rounds once *)
Module Float64Facts.
Import Float64.

Lemma digits2_pos_iter_xO (m p : positive) :
  digits2_pos (Pos.iter xO m p) = (digits2_pos m + p)%positive.
Proof.
  induction p using Pos.peano_ind.
  - simpl. lia.
  - rewrite Pos.iter_succ. simpl. rewrite IHp. lia.
Qed.

Lemma Zpos_iter_xO (m p : positive) :
  Zpos (Pos.iter xO m p) = (Zpos m * 2 ^ Zpos p)%Z.
Proof.
  induction p using Pos.peano_ind.
  - simpl. lia.
  - rewrite Pos.iter_succ, Pos2Z.inj_succ, Z.pow_succ_r by lia.
    rewrite Pos2Z.inj_xO, IHp. lia.
Qed.

Lemma binary_round_aux_canonical (s : bool) (m : positive) (e : Z) :
  Zpos (digits2_pos m) = 53%Z -> (-1074 <= e <= 971)%Z ->
  binary_round_aux prec emax s (Zpos m) e loc_Exact = S754_finite s m e.
Proof.
  intros Hd He.
  assert (Hs : shr_fexp prec emax (Zpos m) e loc_Exact
               = ({| shr_m := Zpos m; shr_r := false; shr_s := false |}, e)).
  { unfold shr_fexp, fexp, emin, prec, emax. simpl Zdigits2. rewrite Hd.
    replace (Z.max (53 + e - 53) (3 - 1024 - 53) - e)%Z with 0%Z by lia.
    reflexivity. }
  unfold binary_round_aux. rewrite Hs. simpl. rewrite Hs. simpl.
  unfold prec, emax.
  destruct (Z.leb_spec e (1024 - 53)); [reflexivity | lia].
Qed.

Lemma normal_mantissa_spec (m : positive) :
  (Zpos (digits2_pos m) <= 53)%Z ->
  Zpos (normal_mantissa m) = (Zpos m * 2 ^ (53 - Zpos (digits2_pos m)))%Z
  /\ Zpos (digits2_pos (normal_mantissa m)) = 53%Z.
Proof.
  intros Hd. unfold normal_mantissa.
  destruct (Zpos (digits2_pos m) - 53)%Z as [|d|d] eqn:E; try lia.
  - replace (53 - Zpos (digits2_pos m))%Z with 0%Z by lia. split; lia.
  - rewrite Zpos_iter_xO, digits2_pos_iter_xO.
    replace (53 - Zpos (digits2_pos m))%Z with (Zpos d) by lia. split; lia.
Qed.

Lemma binary_round_normal (s : bool) (m : positive) :
  (Zpos (digits2_pos m) <= 53)%Z ->
  binary_round prec emax s m 0
  = S754_finite s (normal_mantissa m) (Zpos (digits2_pos m) - 53).
Proof.
  intros Hd. destruct (normal_mantissa_spec m Hd) as [_ Hn].
  unfold binary_round, shl_align, fexp, emin, prec, emax.
  replace (Z.max (Zpos (digits2_pos m) + 0 - 53) (3 - 1024 - 53) - 0)%Z
    with (Zpos (digits2_pos m) - 53)%Z by lia.
  replace (Z.max (Zpos (digits2_pos m) + 0 - 53) (3 - 1024 - 53))%Z
    with (Zpos (digits2_pos m) - 53)%Z by lia.
  unfold normal_mantissa in *.
  destruct (Zpos (digits2_pos m) - 53)%Z as [|d|d] eqn:E; try lia.
  - apply (binary_round_aux_canonical s m 0); [exact Hn | lia].
  - apply (binary_round_aux_canonical s _ (Zneg d)); [exact Hn | lia].
Qed.


Lemma digits2_pos_bounds (p : positive) :
  (2 ^ (Zpos (digits2_pos p) - 1) <= Zpos p < 2 ^ Zpos (digits2_pos p))%Z.
Proof.
  induction p as [p IH|p IH|]; simpl digits2_pos.
  - rewrite Pos2Z.inj_succ. change (Zpos p~1) with (2 * Zpos p + 1)%Z.
    replace (Z.succ (Zpos (digits2_pos p)) - 1)%Z
      with (Z.succ (Zpos (digits2_pos p) - 1)) by lia.
    rewrite !Z.pow_succ_r; [ | lia | lia].
    set (a := (2 ^ (Zpos (digits2_pos p) - 1))%Z) in *.
    set (b := (2 ^ (Zpos (digits2_pos p)))%Z) in *. lia.
  - rewrite Pos2Z.inj_succ. change (Zpos p~0) with (2 * Zpos p)%Z.
    replace (Z.succ (Zpos (digits2_pos p)) - 1)%Z
      with (Z.succ (Zpos (digits2_pos p) - 1)) by lia.
    rewrite !Z.pow_succ_r; [ | lia | lia].
    set (a := (2 ^ (Zpos (digits2_pos p) - 1))%Z) in *.
    set (b := (2 ^ (Zpos (digits2_pos p)))%Z) in *. lia.
  - simpl. lia.
Qed.

Lemma digits2_pos_le (p : positive) (k : Z) :
  (0 <= k)%Z -> (Zpos p < 2 ^ k)%Z -> (Zpos (digits2_pos p) <= k)%Z.
Proof.
  intros Hk Hp. destruct (digits2_pos_bounds p) as [Hlo _].
  destruct (Z.le_gt_cases (Zpos (digits2_pos p)) k) as [?|Hgt]; [assumption|].
  assert (2 ^ k <= 2 ^ (Zpos (digits2_pos p) - 1))%Z
    by (apply Z.pow_le_mono_r; lia).
  lia.
Qed.

Lemma div_eucl_div_mod (a b : Z) : Z.div_eucl a b = ((a / b)%Z, (a mod b)%Z).
Proof. unfold Z.div, Z.modulo. destruct (Z.div_eucl a b). reflexivity. Qed.

Lemma new_location_scale_1000 (r : Z) :
  new_location (1000 * 2 ^ 43) (r * 2 ^ 43) = new_location 1000 r.
Proof.
  unfold new_location. change (Z.even (1000 * 2 ^ 43)) with true.
  change (Z.even 1000) with true. cbv iota. unfold new_location_even.
  destruct (Z.eqb_spec r 0) as [->|Hr].
  - reflexivity.
  - destruct (Z.eqb_spec (r * 2 ^ 43) 0) as [H0|_]; [lia|].
    f_equal. rewrite Z.mul_assoc. symmetry.
    apply Zmult_compare_compat_r. lia.
Qed.

Lemma div_core_1000 (m : positive) :
  (Zpos (digits2_pos m) <= 53)%Z ->
  SFdiv_core_binary prec emax (Zpos (normal_mantissa m))
      (Zpos (digits2_pos m) - 53) 8796093022208000 (-43)
  = SFdiv_core_binary prec emax (Zpos m) 0 1000 0.
Proof.
  intros Hd. destruct (normal_mantissa_spec m Hd) as [Hv Hn].
  set (d := Zpos (digits2_pos m)) in *.
  assert (Hd1 : (1 <= d)%Z) by (unfold d; lia).
  unfold SFdiv_core_binary.
  change (Zdigits2 (Zpos (normal_mantissa m))) with (Zpos (digits2_pos (normal_mantissa m))).
  change (Zdigits2 (Zpos m)) with d.
  rewrite Hn.
  change (Zdigits2 8796093022208000) with 53%Z.
  change (Zdigits2 1000) with 10%Z.
  unfold fexp, emin, prec, emax.
  replace (Z.min (Z.max (53 + (d - 53) - (53 + -43) - 53) (3 - 1024 - 53)) (d - 53 - -43))%Z
    with (d - 63)%Z by lia.
  replace (Z.min (Z.max (d + 0 - (10 + 0) - 53) (3 - 1024 - 53)) (0 - 0))%Z
    with (d - 63)%Z by lia.
  replace (d - 53 - -43 - (d - 63))%Z with 53%Z by lia.
  replace (0 - 0 - (d - 63))%Z with (63 - d)%Z by lia.
  destruct (63 - d)%Z as [|k|k] eqn:Ek; try lia.
  rewrite !Z.shiftl_mul_pow2 by lia.
  rewrite Hv, <- Ek.
  replace (Zpos m * 2 ^ (53 - d) * 2 ^ 53)%Z with ((Zpos m * 2 ^ (63 - d)) * 2 ^ 43)%Z.
  2:{ rewrite <- !Z.mul_assoc. f_equal. rewrite <- !Z.pow_add_r by lia. f_equal. lia. }
  change 8796093022208000%Z with (1000 * 2 ^ 43)%Z.
  rewrite !div_eucl_div_mod.
  rewrite Z.div_mul_cancel_r by lia.
  rewrite Z.mul_mod_distr_r by lia.
  rewrite new_location_scale_1000. reflexivity.
Qed.

Lemma of_int_1000 : of_int 1000 = S754_finite false 8796093022208000 (-43).
Proof. reflexivity. Qed.

Lemma div_of_int_1000_small (m : Z) :
  (Z.abs m < 2 ^ 53)%Z -> div (of_int m) (of_int 1000) = round_quot m 1000.
Proof.
  intros Hm. rewrite of_int_1000. destruct m as [|p|p]; [reflexivity| |].
  - assert (Hd : (Zpos (digits2_pos p) <= 53)%Z) by (apply digits2_pos_le; lia).
    unfold of_int, binary_normalize. rewrite binary_round_normal by exact Hd.
    unfold div, round_quot, exact_int, SFdiv. rewrite div_core_1000 by exact Hd.
    reflexivity.
  - assert (Hd : (Zpos (digits2_pos p) <= 53)%Z) by (apply digits2_pos_le; lia).
    unfold of_int, binary_normalize. rewrite binary_round_normal by exact Hd.
    unfold div, round_quot, exact_int, SFdiv. rewrite div_core_1000 by exact Hd.
    reflexivity.
Qed.

Lemma div_of_int_1000 (m : Z) :
  (Z.abs m <= 2 ^ 53)%Z -> div (of_int m) (of_int 1000) = round_quot m 1000.
Proof.
  intros Hm. destruct (Z.eq_dec (Z.abs m) (2 ^ 53)%Z) as [E|E].
  - assert (m = 2 ^ 53 \/ m = - 2 ^ 53)%Z as [-> | ->] by lia; vm_compute; reflexivity.
  - apply div_of_int_1000_small. lia.
Qed.


Lemma scaled_back (z : Z) (k : Z) :
  (0 <= k)%Z -> (inject_Z (z * 2 ^ k) * Qpower 2 (- k) == inject_Z z)%Q.
Proof.
  intros Hk. rewrite inject_Z_mult, Zpower_Qpower by exact Hk.
  rewrite Qpower_opp. change (inject_Z 2) with 2%Q.
  rewrite <- Qmult_assoc, Qmult_inv_r, Qmult_1_r; [reflexivity|].
  apply Qpower_not_0. discriminate.
Qed.

Lemma of_int_exact (z : Z) :
  (Z.abs z <= 2 ^ 53)%Z -> represents (of_int z) (inject_Z z).
Proof.
  intros Hz. destruct (Z.eq_dec (Z.abs z) (2 ^ 53)%Z) as [E|E].
  { assert (z = 2 ^ 53 \/ z = - 2 ^ 53)%Z as [-> | ->] by lia;
      vm_compute; split; reflexivity. }
  destruct z as [|p|p]; [reflexivity| |].
  - assert (Hd : (Zpos (digits2_pos p) <= 53)%Z) by (apply digits2_pos_le; lia).
    unfold of_int, binary_normalize. rewrite binary_round_normal by exact Hd.
    destruct (normal_mantissa_spec p Hd) as [Hv _].
    unfold represents, SF2Q, cond_Zopp. rewrite Hv.
    replace (Zpos (digits2_pos p) - 53)%Z with (- (53 - Zpos (digits2_pos p)))%Z by lia.
    apply scaled_back. lia.
  - assert (Hd : (Zpos (digits2_pos p) <= 53)%Z) by (apply digits2_pos_le; lia).
    unfold of_int, binary_normalize. rewrite binary_round_normal by exact Hd.
    destruct (normal_mantissa_spec p Hd) as [Hv _].
    unfold represents, SF2Q, cond_Zopp.
    replace (- Zpos (normal_mantissa p))%Z
      with (Zneg p * 2 ^ (53 - Zpos (digits2_pos p)))%Z by (rewrite Hv; lia).
    replace (Zpos (digits2_pos p) - 53)%Z with (- (53 - Zpos (digits2_pos p)))%Z by lia.
    apply scaled_back. lia.
Qed.


(** [float64(1500) / 1000] is the binary64 that denotes 3/2. *)
Lemma one_and_a_half :
  div (of_int 1500) (of_int 1000) = S754_finite false 6755399441055744 (-52)
  /\ represents (S754_finite false 6755399441055744 (-52)) (3 # 2).
Proof. split; [reflexivity | vm_compute; reflexivity]. Qed.

Lemma one_is_one : represents one 1 /\ represents zero 0.
Proof. split; vm_compute; reflexivity. Qed.

End Float64Facts.

(** ** Runs of the limitrange collector *)
Module limitrange_runs.
Import metav1 v1 prometheus limitrange.

Section WithRuntime.
Context (rt : GoRuntime).

Lemma runs_addGauge rq d v lv k :
  length (variableLabels d) = (2 + length lv)%nat ->
  runs (addGauge rq d v lv) k tt k [EvSend (gauge rq d v lv)].
Proof.
  intros H. unfold addGauge.
  eapply (runs_bind _ _ k _ k [] tt k [_]).
  - apply runs_MustNewConstMetric. simpl. exact H.
  - apply runs_emit.
Qed.

(** One of the five inner loops: a sample per entry, in the order the
    entries were handed out. *)
Lemma runs_entries rq item c kvs k :
  runs (for_range kvs (fun '(resource, x) =>
          addGauge rq descLimitRange
            (Float64.div (Float64.of_int (MilliValue x)) (Float64.of_int 1000))
            [resource; limit_Type item; constraint_label c];;
          mret Next))
       k tt k (entries_trace rq item c kvs).
Proof.
  unfold entries_trace. rewrite <- list_fmap_compose.
  induction kvs as [|[resource x] kvs IH].
  - reflexivity.
  - simpl for_range.
    eapply (runs_bind _ _ k Next k [_] tt k _); [|exact IH].
    eapply runs_then_ret, runs_addGauge. reflexivity.
Qed.

Lemma runs_range_map (m : ResourceList) k :
  runs (range_map rt m) k (mapiter rt k m) (S k) [].
Proof. reflexivity. Qed.

Lemma collectLimitRange_unfold rq :
  collectLimitRange rt rq =
  ((if negb (IsZero (CreationTimestamp (lr_meta rq)))
    then addGauge rq descLimitRangeCreated
           (Float64.of_int (Unix (CreationTimestamp (lr_meta rq)))) []
    else mret tt);;
   for_range (Limits (Spec rq)) (item_body rt rq)).
Proof. reflexivity. Qed.

Lemma runs_item_body rq item k :
  runs (item_body rt rq item) k Next (k + 5) (item_trace rt rq item k).
Proof.
  unfold item_body, item_trace.
  replace (k + 5)%nat with (S (S (S (S (S k))))) by lia.
  replace (k + 1)%nat with (S k) by lia.
  replace (k + 2)%nat with (S (S k)) by lia.
  replace (k + 3)%nat with (S (S (S k))) by lia.
  replace (k + 4)%nat with (S (S (S (S k)))) by lia.
  eapply runs_bind_silent; [apply runs_range_map|].
  eapply runs_bind; [apply (runs_entries rq item CMin)|].
  eapply runs_bind_silent; [apply runs_range_map|].
  eapply runs_bind; [apply (runs_entries rq item CMax)|].
  eapply runs_bind_silent; [apply runs_range_map|].
  eapply runs_bind; [apply (runs_entries rq item CDefault)|].
  eapply runs_bind_silent; [apply runs_range_map|].
  eapply runs_bind; [apply (runs_entries rq item CDefaultRequest)|].
  eapply runs_bind_silent; [apply runs_range_map|].
  eapply runs_then_ret, (runs_entries rq item CMaxLimitRequestRatio).
Qed.

Lemma runs_limits rq items k :
  runs (for_range items (item_body rt rq)) k tt (k + 5 * length items)
       (limits_trace rt rq items k).
Proof.
  revert k. induction items as [|item items IH]; intros k.
  - simpl. replace (k + 0)%nat with k by lia. reflexivity.
  - simpl for_range. simpl limits_trace.
    replace (k + 5 * length (item :: items))%nat
      with ((k + 5) + 5 * length items)%nat by (simpl; lia).
    eapply runs_bind; [apply runs_item_body|]. simpl. apply IH.
Qed.

Lemma runs_created rq k :
  runs (if negb (IsZero (CreationTimestamp (lr_meta rq)))
        then addGauge rq descLimitRangeCreated
               (Float64.of_int (Unix (CreationTimestamp (lr_meta rq)))) []
        else mret tt)
       k tt k (EvSend <$> created_samples rq).
Proof.
  unfold created_samples.
  destruct (IsZero (CreationTimestamp (lr_meta rq))); simpl negb; cbv iota.
  - apply runs_ret.
  - apply runs_addGauge. reflexivity.
Qed.

(** The conversion routine never panics; it starts five map iterations
    per limit item and causes exactly the events of [object_trace]. *)
Lemma runs_collectLimitRange rq k :
  runs (collectLimitRange rt rq) k tt (k + object_ticks rq) (object_trace rt rq k).
Proof.
  rewrite collectLimitRange_unfold. unfold object_trace, object_ticks.
  eapply runs_bind; [apply runs_created|]. apply runs_limits.
Qed.

Lemma runs_objects (l : list LimitRange) k :
  runs (for_range l (fun rq => collectLimitRange rt rq;; mret Next)) k tt
       (k + objects_ticks l) (objects_trace rt l k).
Proof.
  revert k. induction l as [|rq l IH]; intros k.
  - simpl. replace (k + 0)%nat with k by lia. reflexivity.
  - simpl for_range. simpl objects_trace. simpl objects_ticks.
    replace (k + (object_ticks rq + objects_ticks l))%nat
      with ((k + object_ticks rq) + objects_ticks l)%nat by lia.
    eapply runs_bind; [eapply runs_then_ret, runs_collectLimitRange|].
    simpl. apply IH.
Qed.

Lemma runs_Collect_ok {S : Type} `{!limitRangeStore S} (lrc : limitRangeCollector S) l k :
  store_List (store lrc) = (l, None) ->
  runs (Collect rt lrc) k tt (k + objects_ticks (lr_Items l))
    (EvObserve "limitrange" (Float64.of_int (Z.of_nat (length (lr_Items l))))
       :: objects_trace rt (lr_Items l) k
       ++ [EvLog INFO "collected %d limitranges"
             [ArgInt (Z.of_nat (length (lr_Items l)))]]).
Proof.
  intros H. unfold Collect. rewrite H.
  eapply (runs_bind _ _ k tt k [_]); [apply runs_emit|].
  eapply runs_bind; [apply runs_objects|]. apply runs_emit.
Qed.

Lemma runs_Collect_err {S : Type} `{!limitRangeStore S} (lrc : limitRangeCollector S) l e k :
  store_List (store lrc) = (l, Some e) ->
  runs (Collect rt lrc) k tt k
    [EvScrapeError "limitrange";
     EvLog ERROR "listing limit ranges failed: %s" [ArgError e]].
Proof.
  intros H. unfold Collect. rewrite H.
  eapply (runs_bind _ _ k tt k [_] tt k [_]); apply runs_emit.
Qed.

End WithRuntime.
End limitrange_runs.

(** ** Runs of the componentstatus collector *)
Module componentstatus_runs.
Import metav1 v1 prometheus componentstatus.

Lemma runs_status_gauge s d v lv k :
  length (variableLabels d) = (1 + length lv)%nat ->
  runs (addGauge s d v lv) k tt k
    [EvSend {| desc := d; valType := GaugeValue; val := v;
               labelValues := [Name (cs_meta s)] ++ lv |}].
Proof.
  intros H. unfold addGauge, addConstMetric.
  eapply (runs_bind _ _ k _ k [] tt k [_]).
  - apply runs_MustNewConstMetric. simpl. exact H.
  - apply runs_emit.
Qed.

(** The three gauges of the tri-state expansion, then [break]. *)
Lemma runs_expansion s p k :
  runs (addGauge s descComponentStatusStatusHealthy
          (boolFloat64 (String.eqb (Status p) ConditionTrue)) [ConditionTrue];;
        addGauge s descComponentStatusStatusHealthy
          (boolFloat64 (String.eqb (Status p) ConditionFalse)) [ConditionFalse];;
        addGauge s descComponentStatusStatusHealthy
          (boolFloat64 (String.eqb (Status p) ConditionUnknown)) [ConditionUnknown];;
        mret Break)
       k Break k (EvSend <$> healthy_samples s p).
Proof.
  eapply (runs_bind _ _ k tt k [_] Break k [_; _]);
    [apply runs_status_gauge; reflexivity|].
  eapply (runs_bind _ _ k tt k [_] Break k [_]);
    [apply runs_status_gauge; reflexivity|].
  eapply runs_then_ret. apply runs_status_gauge. reflexivity.
Qed.

(** The conversion routine never panics, starts no map iteration and
    sends the samples of the first Healthy condition, if there is one. *)
Lemma runs_collectComponentStatus s k :
  runs (collectComponentStatus s) k tt k (EvSend <$> status_samples s).
Proof.
  unfold collectComponentStatus, status_samples.
  induction (Conditions s) as [|p conds IH].
  - reflexivity.
  - simpl for_range. simpl List.find. unfold is_healthy at 1.
    destruct (String.eqb (cond_Type p) ComponentHealthy).
    + rewrite <- (app_nil_r (EvSend <$> healthy_samples s p)).
      eapply runs_bind; [apply runs_expansion|]. apply runs_ret.
    + eapply runs_bind_silent; [apply runs_ret|]. exact IH.
Qed.

Lemma runs_statuses (l : list ComponentStatus) k :
  runs (for_range l (fun s => collectComponentStatus s;; mret Next)) k tt k
       (statuses_trace l).
Proof.
  apply (runs_for_range_pure _ (fun s => EvSend <$> status_samples s)).
  intros s k'. eapply runs_then_ret, runs_collectComponentStatus.
Qed.

Lemma sent_statuses (l : list ComponentStatus) :
  sent (statuses_trace l) = l ≫= status_samples.
Proof.
  unfold statuses_trace. induction l as [|s l IH]; [reflexivity|].
  simpl. rewrite sent_app, sent_sends. f_equal. exact IH.
Qed.

Lemma runs_components_ok {S : Type} `{!componentStatusStore S}
    (csc : componentStatusCollector S) l k :
  store_List (store csc) = (l, None) ->
  runs (Collect csc) k tt k
    (EvObserve "componentstatus" (Float64.of_int (Z.of_nat (length (cs_Items l))))
       :: statuses_trace (cs_Items l)
       ++ [EvLog INFO "collected %d componentstatuses"
             [ArgInt (Z.of_nat (length (cs_Items l)))]]).
Proof.
  intros H. unfold Collect. rewrite H.
  eapply (runs_bind _ _ k tt k [_]); [apply runs_emit|].
  eapply runs_bind; [apply runs_statuses|]. apply runs_emit.
Qed.

Lemma runs_components_err {S : Type} `{!componentStatusStore S}
    (csc : componentStatusCollector S) l e k :
  store_List (store csc) = (l, Some e) ->
  runs (Collect csc) k tt k
    [EvScrapeError "componentstatus";
     EvLog ERROR "listing component status failed: %s" [ArgError e]].
Proof.
  intros H. unfold Collect. rewrite H.
  eapply (runs_bind _ _ k tt k [_] tt k [_]); apply runs_emit.
Qed.

End componentstatus_runs.

(** ** Samples of the limitrange collector *)
Module limitrange_samples.
Import metav1 v1 prometheus limitrange limitrange_runs.

Lemma sent_entries rq item c kvs :
  sent (entries_trace rq item c kvs) = entry_sample code_units rq item c <$> kvs.
Proof. apply sent_sends. Qed.

Lemma sent_item rt rq item k :
  sent (item_trace rt rq item k) ≡ₚ item_samples code_units rq item.
Proof.
  unfold item_trace, item_samples. rewrite !sent_app, !sent_entries.
  simpl. rewrite app_nil_r.
  repeat apply Permutation_app; apply fmap_Permutation, mapiter_perm.
Qed.

Lemma sent_limits rt rq items k :
  sent (limits_trace rt rq items k) ≡ₚ items ≫= item_samples code_units rq.
Proof.
  revert k. induction items as [|item items IH]; intros k; [reflexivity|].
  simpl. rewrite sent_app. apply Permutation_app; [apply sent_item | apply IH].
Qed.

Lemma sent_object rt rq k :
  sent (object_trace rt rq k)
  = created_samples rq ++ sent (limits_trace rt rq (Limits (Spec rq)) k).
Proof. unfold object_trace. rewrite sent_app, sent_sends. reflexivity. Qed.

Lemma sent_object_perm rt rq k :
  sent (object_trace rt rq k) ≡ₚ object_samples rq.
Proof.
  rewrite sent_object. unfold object_samples.
  apply Permutation_app; [reflexivity | apply sent_limits].
Qed.

Lemma sent_objects_perm rt l k :
  sent (objects_trace rt l k) ≡ₚ l ≫= object_samples.
Proof.
  revert k. induction l as [|rq l IH]; intros k; [reflexivity|].
  simpl. rewrite sent_app. apply Permutation_app; [apply sent_object_perm | apply IH].
Qed.

(** Every sample of the limit loops belongs to [kube_limitrange]. *)
Lemma limits_trace_family rt rq items k :
  Forall (fun m => desc m = descLimitRange) (sent (limits_trace rt rq items k)).
Proof.
  revert k. induction items as [|item items IH]; intros k; [constructor|].
  simpl. rewrite sent_app. apply Forall_app. split; [|apply IH].
  unfold item_trace. rewrite !sent_app, !sent_entries.
  repeat (apply Forall_app; split); apply Forall_fmap, Forall_true; reflexivity.
Qed.

Lemma created_samples_family rq :
  Forall (fun m => desc m = descLimitRangeCreated) (created_samples rq).
Proof.
  unfold created_samples. destruct (IsZero _); repeat constructor.
Qed.

Lemma filter_all {A : Type} (P : A -> Prop) `{!forall x, Decision (P x)} (l : list A) :
  Forall P l -> filter P l = l.
Proof.
  induction 1 as [|x l Hx _ IH]; [reflexivity|].
  rewrite filter_cons_True by exact Hx. f_equal. exact IH.
Qed.

Lemma filter_none {A : Type} (P : A -> Prop) `{!forall x, Decision (P x)} (l : list A) :
  Forall (fun x => ~ P x) l -> filter P l = [].
Proof.
  induction 1 as [|x l Hx _ IH]; [reflexivity|].
  rewrite filter_cons_False by exact Hx. exact IH.
Qed.

Lemma families_differ : descLimitRange <> descLimitRangeCreated.
Proof. discriminate. Qed.

Lemma family_created rt rq k :
  of_family descLimitRangeCreated (sent (object_trace rt rq k)) = created_samples rq.
Proof.
  rewrite sent_object. unfold of_family. rewrite filter_app.
  rewrite (filter_all _ _ (created_samples_family rq)).
  rewrite filter_none; [apply app_nil_r|].
  eapply Forall_impl; [apply limits_trace_family|].
  intros m -> . apply families_differ.
Qed.

Lemma family_limits rt rq k :
  of_family descLimitRange (sent (object_trace rt rq k))
  = sent (limits_trace rt rq (Limits (Spec rq)) k).
Proof.
  rewrite sent_object. unfold of_family. rewrite filter_app.
  rewrite (filter_all _ _ (limits_trace_family rt rq _ k)).
  rewrite filter_none; [reflexivity|].
  eapply Forall_impl; [apply created_samples_family|].
  intros m -> H. apply families_differ. symmetry. exact H.
Qed.

(** Where every quantity fits the mantissa, the code's conversion and
    the specification's agree on every entry. *)
Lemma entries_agree rq item (cs : list Constraint) :
  Forall (fun c =>
    map_Forall (fun _ q => (Z.abs (MilliValue q) <= 2 ^ 53)%Z) (constraint_map c item)) cs ->
  (c ← cs; entry_sample code_units rq item c <$> map_to_list (constraint_map c item))
  = (c ← cs; entry_sample spec_units rq item c <$> map_to_list (constraint_map c item)).
Proof.
  induction 1 as [|c cs Hc _ IHc]; [reflexivity|].
  rewrite !bind_cons. f_equal; [|exact IHc].
  apply Forall_fmap_ext. apply map_Forall_to_list in Hc.
  eapply Forall_impl; [exact Hc|].
  intros [r q] Hq. unfold entry_sample, code_units, spec_units. simpl in *.
  rewrite Float64Facts.div_of_int_1000 by exact Hq. reflexivity.
Qed.

Lemma limit_samples_agree rq :
  fits_mantissa rq -> limit_samples code_units rq = limit_samples spec_units rq.
Proof.
  unfold fits_mantissa, limit_samples.
  induction 1 as [|item items Hitem _ IH]; [reflexivity|].
  rewrite !bind_cons. f_equal; [|exact IH].
  apply entries_agree, Hitem.
Qed.

End limitrange_samples.

(* ================================================================== *)
(** * Part III: the properties of the specification *)
(* ================================================================== *)

Import metav1 v1 prometheus examples.

(** ** Error handling *)

Lemma failed_scrape_intro kind (r : Run unit) fmt e k :
  r = {| outcome := Ok tt; ticks := k;
         trace := [EvScrapeError kind; EvLog ERROR fmt [ArgError e]] |} ->
  failed_scrape kind r.
Proof.
  intros ->. unfold failed_scrape. simpl.
  split; [reflexivity|]. split; [|split; [reflexivity|intros kind'; reflexivity]].
  intros kind'. unfold scrape_errors. simpl.
  destruct (String.eqb kind kind'); reflexivity.
Qed.

(** C1: when the lister of a collector (limitrange or componentstatus)
    returns a non-nil error, [Collect] returns normally, the scrape-error
    counter of that resource kind goes up by exactly one (and no other
    kind's does), no sample is sent and no resources-per-scrape
    observation is recorded. *)
Theorem lister_error_is_counted_once :
  (forall (rt : GoRuntime) (S : Type) (H : limitrange.limitRangeStore S)
          (lrc : limitrange.limitRangeCollector S) (k : nat) l e,
      limitrange.store_List (limitrange.store lrc) = (l, Some e) ->
      failed_scrape "limitrange" (limitrange.Collect rt lrc k))
  /\ (forall (S : Type) (H : componentstatus.componentStatusStore S)
             (csc : componentstatus.componentStatusCollector S) (k : nat) l e,
      componentstatus.store_List (componentstatus.store csc) = (l, Some e) ->
      failed_scrape "componentstatus" (componentstatus.Collect csc k)).
Proof.
  split.
  - intros rt S H lrc k l e Hl.
    eapply failed_scrape_intro. exact (limitrange_runs.runs_Collect_err rt lrc l e k Hl).
  - intros S H csc k l e Hl.
    eapply failed_scrape_intro. exact (componentstatus_runs.runs_components_err csc l e k Hl).
Qed.

Lemma lister_error_is_counted_once_witness :
  failed_scrape "limitrange" (limitrange.Collect rt_sorted lrc_failing 0)
  /\ failed_scrape "componentstatus" (componentstatus.Collect csc_failing 0).
Proof.
  split.
  - apply (proj1 lister_error_is_counted_once rt_sorted _ _ lrc_failing 0%nat
             {| lr_Items := [] |} "cache unavailable"). reflexivity.
  - apply (proj2 lister_error_is_counted_once _ _ csc_failing 0%nat
             {| cs_Items := [] |} "cache unavailable"). reflexivity.
Defined.

(** ** The lister built at registration *)

Lemma collect_items {A B : Type} (wrap : list A -> B) (items : B -> list A) (l : list A) :
  (forall xs, items (wrap xs) = xs) ->
  forall acc, fold_left (fun b x => wrap (items b ++ [x])) l (wrap acc) = wrap (acc ++ l).
Proof.
  intros Hw. induction l as [|x l IH]; intros acc; simpl.
  - rewrite app_nil_r. reflexivity.
  - rewrite Hw, IH, <- app_assoc. reflexivity.
Qed.

(** C2, as the code has it: the lister built at registration never
    returns an error; it returns, with a nil error, every object the
    informer's store holds at that instant, in the store's order, whether
    or not the informer has synchronized. *)
Theorem registered_lister_returns_store_and_nil :
  (forall rqinf : cache.SharedInformer LimitRange,
      limitrange.store_List
        (limitrange.store (limitrange.RegisterLimitRangeCollector rqinf))
      = ({| lr_Items := cache.GetStore_List rqinf |}, None))
  /\ (forall sinf : cache.SharedInformer ComponentStatus,
      componentstatus.store_List
        (componentstatus.store (componentstatus.RegisterComponentStatusCollector sinf))
      = ({| cs_Items := cache.GetStore_List sinf |}, None)).
Proof.
  split.
  - intros rqinf. unfold limitrange.store_List, limitrange.LimitRangeLister_List.
    simpl. unfold limitrange.limitRangeLister. f_equal.
    apply (collect_items Build_LimitRangeList lr_Items _ (fun _ => eq_refl) []).
  - intros sinf.
    unfold componentstatus.store_List, componentstatus.ComponentStatusLister_List.
    simpl. unfold componentstatus.componentStatusLister. f_equal.
    apply (collect_items Build_ComponentStatusList cs_Items _ (fun _ => eq_refl) []).
Qed.

(** C2, as it is worded, fails: an informer that has not synchronized,
    holding part of the cluster's objects, is listed without an error. *)
Lemma unsynced_cache_is_listed_without_error : ~ claims.unsynced_cache_is_an_error.
Proof.
  intros [Hlr _]. apply (Hlr unsynced_limitranges); reflexivity.
Qed.

Lemma sent_scrape kind v (conv : list Event) fmt args :
  sent (EvObserve kind v :: conv ++ [EvLog INFO fmt args]) = sent conv.
Proof.
  change (sent (conv ++ [EvLog INFO fmt args]) = sent conv).
  rewrite sent_app. apply app_nil_r.
Qed.

(** ** Label arity *)

Lemma limits_trace_shape rt rq items k :
  Forall (fun m => desc m = limitrange.descLimitRange /\ length (labelValues m) = 5%nat)
         (sent (limitrange.limits_trace rt rq items k)).
Proof.
  revert k. induction items as [|item items IH]; intros k; [constructor|].
  simpl. rewrite sent_app. apply Forall_app. split; [|apply IH].
  unfold limitrange.item_trace.
  rewrite !sent_app, !limitrange_samples.sent_entries.
  repeat (apply Forall_app; split); apply Forall_fmap, Forall_true;
    intros kv; split; reflexivity.
Qed.

Lemma created_samples_shape rq :
  Forall (fun m => desc m = limitrange.descLimitRangeCreated
                   /\ length (labelValues m) = 2%nat)
         (limitrange.created_samples rq).
Proof.
  unfold limitrange.created_samples. destruct (IsZero _); repeat constructor.
Qed.

Lemma status_samples_shape s :
  Forall (fun m => desc m = componentstatus.descComponentStatusStatusHealthy
                   /\ length (labelValues m) = 2%nat)
         (componentstatus.status_samples s).
Proof.
  unfold componentstatus.status_samples.
  destruct (List.find _ _); repeat constructor.
Qed.

(** C3: neither conversion routine panics, and every sample it sends
    carries as many label values as its descriptor has label names: 5 for
    [kube_limitrange], 2 for [kube_limitrange_created] and 2 for
    [kube_componentstatus_status_healthy]. *)
Theorem label_values_match_label_names :
  (forall (rt : GoRuntime) (rq : LimitRange) (k : nat),
      let r := limitrange.collectLimitRange rt rq k in
      outcome r = Ok tt
      /\ Forall arity_ok (sent (trace r))
      /\ Forall (fun m =>
            (desc m = limitrange.descLimitRange /\ length (labelValues m) = 5%nat)
            \/ (desc m = limitrange.descLimitRangeCreated
                /\ length (labelValues m) = 2%nat))
           (sent (trace r)))
  /\ (forall (s : ComponentStatus) (k : nat),
      let r := componentstatus.collectComponentStatus s k in
      outcome r = Ok tt
      /\ Forall arity_ok (sent (trace r))
      /\ Forall (fun m =>
            desc m = componentstatus.descComponentStatusStatusHealthy
            /\ length (labelValues m) = 2%nat)
           (sent (trace r))).
Proof.
  split.
  - intros rt rq k r. subst r.
    rewrite (limitrange_runs.runs_collectLimitRange rt rq k). simpl.
    rewrite limitrange_samples.sent_object.
    assert (Hshape : Forall (fun m =>
              (desc m = limitrange.descLimitRange /\ length (labelValues m) = 5%nat)
              \/ (desc m = limitrange.descLimitRangeCreated
                  /\ length (labelValues m) = 2%nat))
             (limitrange.created_samples rq
              ++ sent (limitrange.limits_trace rt rq (Limits (Spec rq)) k))).
    { apply Forall_app. split.
      - eapply Forall_impl; [apply created_samples_shape|]. intros m Hm. right. exact Hm.
      - eapply Forall_impl; [apply limits_trace_shape|]. intros m Hm. left. exact Hm. }
    split; [reflexivity|]. split; [|exact Hshape].
    eapply Forall_impl; [exact Hshape|].
    intros m [[Hd Hn]|[Hd Hn]]; unfold arity_ok; rewrite Hd, Hn; reflexivity.
  - intros s k r. subst r.
    rewrite (componentstatus_runs.runs_collectComponentStatus s k). simpl.
    rewrite sent_sends.
    split; [reflexivity|]. split; [|apply status_samples_shape].
    eapply Forall_impl; [apply status_samples_shape|].
    intros m [Hd Hn]; unfold arity_ok; rewrite Hd, Hn; reflexivity.
Qed.

(** ** The tri-state expansion *)

Lemma sent_collectComponentStatus s k :
  sent (trace (componentstatus.collectComponentStatus s k))
  = componentstatus.status_samples s.
Proof.
  rewrite (componentstatus_runs.runs_collectComponentStatus s k). apply sent_sends.
Qed.

(** C4: for a ComponentStatus whose first condition of type
    ComponentHealthy is [p], with [p]'s status one of the three states
    True, False and Unknown, the routine sends exactly three gauges,
    labelled True, False and Unknown in that order; exactly one of them is
    1, the one of [p]'s status, and the other two are 0 (as float64
    values: the ones that denote 1 and 0). *)
Theorem tri_state_expansion_is_one_hot (s : ComponentStatus) (p : ComponentCondition) (k : nat) :
  List.find componentstatus.is_healthy (Conditions s) = Some p ->
  componentstatus.tri_state (Status p) ->
  exists vT vF vU,
    sent (trace (componentstatus.collectComponentStatus s k))
    = [componentstatus.status_gauge s vT ConditionTrue;
       componentstatus.status_gauge s vF ConditionFalse;
       componentstatus.status_gauge s vU ConditionUnknown]
    /\ ((Status p = ConditionTrue
         /\ vT = Float64.one /\ vF = Float64.zero /\ vU = Float64.zero)
        \/ (Status p = ConditionFalse
         /\ vT = Float64.zero /\ vF = Float64.one /\ vU = Float64.zero)
        \/ (Status p = ConditionUnknown
         /\ vT = Float64.zero /\ vF = Float64.zero /\ vU = Float64.one))
    /\ Float64.represents Float64.one 1 /\ Float64.represents Float64.zero 0.
Proof.
  intros Hfind Htri. rewrite sent_collectComponentStatus.
  unfold componentstatus.status_samples. rewrite Hfind.
  unfold componentstatus.healthy_samples.
  do 3 eexists. split; [reflexivity|]. split; [|exact Float64Facts.one_is_one].
  destruct Htri as [E|[E|E]]; rewrite E.
  - left. repeat split.
  - right. left. repeat split.
  - right. right. repeat split.
Qed.

Lemma tri_state_expansion_is_one_hot_witness :
  exists vT vF vU,
    sent (trace (componentstatus.collectComponentStatus etcd0 0))
    = [componentstatus.status_gauge etcd0 vT ConditionTrue;
       componentstatus.status_gauge etcd0 vF ConditionFalse;
       componentstatus.status_gauge etcd0 vU ConditionUnknown]
    /\ ((Status (healthy "False") = ConditionTrue
         /\ vT = Float64.one /\ vF = Float64.zero /\ vU = Float64.zero)
        \/ (Status (healthy "False") = ConditionFalse
         /\ vT = Float64.zero /\ vF = Float64.one /\ vU = Float64.zero)
        \/ (Status (healthy "False") = ConditionUnknown
         /\ vT = Float64.zero /\ vF = Float64.zero /\ vU = Float64.one))
    /\ Float64.represents Float64.one 1 /\ Float64.represents Float64.zero 0.
Proof.
  apply (tri_state_expansion_is_one_hot etcd0 (healthy "False") 0).
  - reflexivity.
  - right. left. reflexivity.
Defined.

(** A status outside the three states leaves all three gauges at 0. *)
Lemma other_status_is_all_zero (s : ComponentStatus) (p : ComponentCondition) (k : nat) :
  List.find componentstatus.is_healthy (Conditions s) = Some p ->
  ~ componentstatus.tri_state (Status p) ->
  sent (trace (componentstatus.collectComponentStatus s k))
  = [componentstatus.status_gauge s Float64.zero ConditionTrue;
     componentstatus.status_gauge s Float64.zero ConditionFalse;
     componentstatus.status_gauge s Float64.zero ConditionUnknown].
Proof.
  intros Hfind Htri. rewrite sent_collectComponentStatus.
  unfold componentstatus.status_samples. rewrite Hfind.
  unfold componentstatus.healthy_samples, componentstatus.tri_state in *.
  destruct (String.eqb_spec (Status p) ConditionTrue) as [E|_]; [tauto|].
  destruct (String.eqb_spec (Status p) ConditionFalse) as [E|_]; [tauto|].
  destruct (String.eqb_spec (Status p) ConditionUnknown) as [E|_]; [tauto|].
  reflexivity.
Qed.

(** ** One expansion per object *)

Lemma status_samples_length s :
  length (componentstatus.status_samples s)
  = if existsb componentstatus.is_healthy (Conditions s) then 3%nat else 0%nat.
Proof.
  unfold componentstatus.status_samples.
  induction (Conditions s) as [|p conds IH]; [reflexivity|].
  simpl. destruct (componentstatus.is_healthy p); [reflexivity|exact IH].
Qed.

Lemma bind_status_samples_length (l : list ComponentStatus) :
  length (l ≫= componentstatus.status_samples)
  = (3 * length (List.filter
                   (fun s => existsb componentstatus.is_healthy (Conditions s)) l))%nat.
Proof.
  induction l as [|s l IH]; [reflexivity|].
  rewrite bind_cons, length_app, IH, status_samples_length. simpl List.filter.
  destruct (existsb _ _); simpl length; lia.
Qed.

(** C5, as the code has it: the [break] ends the loop over the conditions
    of one object, so each object sends the three samples of its first
    Healthy condition and nothing for its later ones; a scrape sends one
    such set for every object of the snapshot that has a Healthy
    condition, in snapshot order. *)
Theorem one_expansion_per_object :
  (forall (s : ComponentStatus) (k : nat),
      sent (trace (componentstatus.collectComponentStatus s k))
      = match List.find componentstatus.is_healthy (Conditions s) with
        | Some p => componentstatus.healthy_samples s p
        | None => []
        end)
  /\ (forall (S : Type) (H : componentstatus.componentStatusStore S)
             (csc : componentstatus.componentStatusCollector S) (k : nat) l,
      componentstatus.store_List (componentstatus.store csc) = (l, None) ->
      sent (trace (componentstatus.Collect csc k))
      = cs_Items l ≫= componentstatus.status_samples
      /\ length (sent (trace (componentstatus.Collect csc k)))
         = (3 * length (List.filter
                          (fun s => existsb componentstatus.is_healthy (Conditions s))
                          (cs_Items l)))%nat).
Proof.
  split.
  - intros s k. apply sent_collectComponentStatus.
  - intros S H csc k l Hl.
    rewrite (componentstatus_runs.runs_components_ok csc l k Hl). simpl trace.
    assert (E : sent (EvObserve "componentstatus"
                        (Float64.of_int (Z.of_nat (length (cs_Items l))))
                      :: componentstatus.statuses_trace (cs_Items l)
                      ++ [EvLog INFO "collected %d componentstatuses"
                            [ArgInt (Z.of_nat (length (cs_Items l)))]])
                = cs_Items l ≫= componentstatus.status_samples).
    { rewrite sent_scrape. apply componentstatus_runs.sent_statuses. }
    rewrite E. split; [reflexivity|apply bind_status_samples_length].
Qed.

Lemma one_expansion_per_object_witness :
  sent (trace (componentstatus.Collect csc_two 0))
  = [scheduler; etcd0] ≫= componentstatus.status_samples
  /\ length (sent (trace (componentstatus.Collect csc_two 0)))
     = (3 * length (List.filter
                      (fun s => existsb componentstatus.is_healthy (Conditions s))
                      [scheduler; etcd0]))%nat.
Proof.
  apply (proj2 one_expansion_per_object _ _ csc_two 0%nat
           {| cs_Items := [scheduler; etcd0] |}).
  reflexivity.
Defined.

(** C5, as it is worded, fails: a snapshot of two components that each
    have a Healthy condition sends two sets of status samples. *)
Lemma two_components_send_two_expansions : ~ claims.one_expansion_per_scrape.
Proof.
  intros H. specialize (H csc_two 0%nat). vm_compute in H. lia.
Qed.

(** C10: [collectComponentStatus] sends exactly three samples when the
    object has a condition of type ComponentHealthy and none otherwise,
    and the conditions of any other type can be dropped from the object
    without changing what is sent. *)
Theorem three_samples_or_none (s : ComponentStatus) (k : nat) :
  length (sent (trace (componentstatus.collectComponentStatus s k)))
  = (if existsb componentstatus.is_healthy (Conditions s) then 3%nat else 0%nat)
  /\ sent (trace (componentstatus.collectComponentStatus s k))
     = sent (trace (componentstatus.collectComponentStatus
                      (componentstatus.only_healthy s) k)).
Proof.
  rewrite !sent_collectComponentStatus. split; [apply status_samples_length|].
  unfold componentstatus.status_samples, componentstatus.only_healthy. simpl.
  induction (Conditions s) as [|p conds IH]; [reflexivity|].
  simpl. destruct (componentstatus.is_healthy p) eqn:E; simpl; rewrite ?E; [reflexivity|exact IH].
Qed.

(** ** The creation timestamp *)

(** C6: a LimitRange whose creation timestamp is the zero time sends no
    [kube_limitrange_created] sample; one whose timestamp is a non-zero
    time T sends exactly one, and its value is the float64 encoding of the
    Unix seconds of T, which denotes that integer exactly whenever it is
    at most 2^53 in magnitude. *)
Theorem created_sample_iff_timestamp_set (rt : GoRuntime) (rq : LimitRange) (k : nat) :
  let T := CreationTimestamp (lr_meta rq) in
  of_family limitrange.descLimitRangeCreated
    (sent (trace (limitrange.collectLimitRange rt rq k)))
  = (if IsZero T then []
     else [limitrange.gauge rq limitrange.descLimitRangeCreated
             (Float64.of_int (Unix T)) []])
  /\ ((Z.abs (Unix T) <= 2 ^ 53)%Z ->
      Float64.represents (Float64.of_int (Unix T)) (inject_Z (Unix T))).
Proof.
  intros T. split.
  - rewrite (limitrange_runs.runs_collectLimitRange rt rq k). simpl trace.
    apply limitrange_samples.family_created.
  - apply Float64Facts.of_int_exact.
Qed.

Lemma created_sample_iff_timestamp_set_witness :
  (of_family limitrange.descLimitRangeCreated
     (sent (trace (limitrange.collectLimitRange rt_sorted lr_small 0)))
   = [limitrange.gauge lr_small limitrange.descLimitRangeCreated
        (Float64.of_int 1500000000) []]
   /\ Float64.represents (Float64.of_int 1500000000) (inject_Z 1500000000))
  /\ of_family limitrange.descLimitRangeCreated
       (sent (trace (limitrange.collectLimitRange rt_sorted lr_unset 0))) = [].
Proof.
  split.
  - destruct (created_sample_iff_timestamp_set rt_sorted lr_small 0) as [Hs He].
    split; [exact Hs|]. apply He. vm_compute. discriminate.
  - exact (proj1 (created_sample_iff_timestamp_set rt_sorted lr_unset 0)).
Defined.

(** ** The fixed-point conversion *)

Lemma limit_family_of_run rt rq k :
  of_family limitrange.descLimitRange
    (sent (trace (limitrange.collectLimitRange rt rq k)))
  ≡ₚ limitrange.limit_samples limitrange.code_units rq.
Proof.
  rewrite (limitrange_runs.runs_collectLimitRange rt rq k). simpl trace.
  rewrite limitrange_samples.family_limits. apply limitrange_samples.sent_limits.
Qed.

Lemma limit_samples_ext (f g : Z -> spec_float) (rq : LimitRange) :
  (forall m, f m = g m) ->
  limitrange.limit_samples f rq = limitrange.limit_samples g rq.
Proof.
  intros Hfg. unfold limitrange.limit_samples.
  induction (Limits (Spec rq)) as [|item items IH]; [reflexivity|].
  rewrite !bind_cons. f_equal; [|exact IH]. clear IH.
  induction limitrange.all_constraints as [|c cs IHc]; [reflexivity|].
  rewrite !bind_cons. f_equal; [|exact IHc].
  apply Forall_fmap_ext, Forall_true. intros [r q].
  unfold limitrange.entry_sample. rewrite Hfg. reflexivity.
Qed.

Lemma code_units_where_it_fits (m : Z) :
  limitrange.code_units m = limitrange.rounded_once_where_it_fits m.
Proof.
  unfold limitrange.rounded_once_where_it_fits.
  destruct (Z.leb_spec (Z.abs m) (2 ^ 53)) as [Hm|_]; [|reflexivity].
  apply Float64Facts.div_of_int_1000. exact Hm.
Qed.

(** C7, as the code has it: the [kube_limitrange] samples of an object
    are, up to order, one per constraint entry (min, max, default,
    defaultRequest, maxLimitRequestRatio) of every resource and type,
    labelled with the object's name and namespace, the resource, the type
    and the constraint, and the value of each is [float64(milli) / 1000],
    whatever the magnitude of the quantities.  Entry by entry, for every
    milli-unit value of at most 2^53 in magnitude the conversion to
    float64 is exact and that value is the milli-unit value divided by
    1000 at full precision and rounded once to float64, whatever the
    other quantities of the object are.  A milli-unit value of 1500 yields
    the float64 that denotes exactly 3/2. *)
Theorem milli_value_divided_by_1000 (rt : GoRuntime) (rq : LimitRange) (k : nat) :
  let ms := of_family limitrange.descLimitRange
              (sent (trace (limitrange.collectLimitRange rt rq k))) in
  ms ≡ₚ limitrange.limit_samples limitrange.code_units rq
  /\ ms ≡ₚ limitrange.limit_samples limitrange.rounded_once_where_it_fits rq
  /\ (forall m : Z, (Z.abs m <= 2 ^ 53)%Z ->
        Float64.represents (Float64.of_int m) (inject_Z m)
        /\ limitrange.code_units m = limitrange.spec_units m
        /\ limitrange.rounded_once_where_it_fits m = limitrange.spec_units m)
  /\ (limitrange.fits_mantissa rq ->
        ms ≡ₚ limitrange.limit_samples limitrange.spec_units rq)
  /\ limitrange.code_units 1500 = limitrange.spec_units 1500
  /\ Float64.represents (limitrange.code_units 1500) (3 # 2).
Proof.
  intros ms. subst ms. split; [|split; [|split; [|split; [|split]]]].
  - apply limit_family_of_run.
  - rewrite <- (limit_samples_ext _ _ rq code_units_where_it_fits).
    apply limit_family_of_run.
  - intros m Hm. split; [|split].
    + apply Float64Facts.of_int_exact. exact Hm.
    + apply Float64Facts.div_of_int_1000. exact Hm.
    + rewrite <- code_units_where_it_fits.
      apply Float64Facts.div_of_int_1000. exact Hm.
  - intros Hfit. rewrite <- (limitrange_samples.limit_samples_agree rq Hfit).
    apply limit_family_of_run.
  - reflexivity.
  - vm_compute. reflexivity.
Qed.

Lemma lr_small_fits_mantissa : limitrange.fits_mantissa lr_small.
Proof.
  unfold limitrange.fits_mantissa, lr_small, Spec, Limits.
  repeat constructor.
  all: unfold limitrange.constraint_map, container_limits,
         Min, Max, Default, DefaultRequest, MaxLimitRequestRatio.
  all: repeat (first [ apply map_Forall_empty
                     | apply map_Forall_insert_2;
                       [unfold quantity, MilliValue; lia|] ]).
Defined.

Lemma milli_value_divided_by_1000_witness :
  (of_family limitrange.descLimitRange
     (sent (trace (limitrange.collectLimitRange rt_alternating lr_small 5)))
   ≡ₚ limitrange.limit_samples limitrange.spec_units lr_small
   /\ limitrange.code_units 1500 = limitrange.spec_units 1500
   /\ Float64.represents (limitrange.code_units 1500) (3 # 2))
  /\ (of_family limitrange.descLimitRange
        (sent (trace (limitrange.collectLimitRange rt_sorted lr_huge 0)))
      ≡ₚ limitrange.limit_samples limitrange.code_units lr_huge
      /\ limitrange.code_units 2000 = limitrange.spec_units 2000).
Proof.
  split.
  - destruct (milli_value_divided_by_1000 rt_alternating lr_small 5)
      as (_ & _ & Hm & Hfit & _ & H32).
    split; [exact (Hfit lr_small_fits_mantissa)|]. split; [|exact H32].
    apply (Hm 1500%Z). vm_compute. discriminate.
  - destruct (milli_value_divided_by_1000 rt_sorted lr_huge 0)
      as (Hcode & _ & Hm & _).
    split; [exact Hcode|]. apply (Hm 2000%Z). vm_compute. discriminate.
Defined.

(** What the code sends for 9007199254740999 milli-units, what the
    quotient rounded once is, and how far each lies from
    9007199254740.999: floats of this size are 2^-9 apart, the quotient
    rounded once is within half that step (2^-10), the code's value is
    not. *)
Lemma huge_quantity_is_rounded_twice :
  Float64.of_int 9007199254740999 = Float64.of_int 9007199254741000
  /\ limitrange.code_units 9007199254740999 = S754_finite false 4611686018427392 (-9)
  /\ limitrange.spec_units 9007199254740999 = S754_finite false 4611686018427391 (-9)
  /\ Float64.dist_to_quot (limitrange.code_units 9007199254740999)
       9007199254740999 1000 = Some (512 # 512000)
  /\ Float64.dist_to_quot (limitrange.spec_units 9007199254740999)
       9007199254740999 1000 = Some (488 # 512000)
  /\ (488 # 512000 < 1 # 1024 < 512 # 512000)%Q.
Proof. repeat split; vm_compute; reflexivity. Qed.

(** C7, as it is worded, fails: a memory ceiling of 9007199254740999
    milli-units is first rounded to a float64 and then divided, and the
    sample that results is not the quotient rounded once. *)
Lemma huge_quantity_loses_precision : ~ claims.divided_at_full_precision.
Proof.
  intros H. specialize (H rt_sorted lr_huge 0%nat).
  assert (Ecode : of_family limitrange.descLimitRange
            (sent (trace (limitrange.collectLimitRange rt_sorted lr_huge 0)))
          = [limitrange.gauge lr_huge limitrange.descLimitRange
               (S754_finite false 4611686018427392 (-9)) ["memory"; "Pod"; "max"]])
    by (vm_compute; reflexivity).
  assert (Espec : limitrange.limit_samples limitrange.spec_units lr_huge
          = [limitrange.gauge lr_huge limitrange.descLimitRange
               (S754_finite false 4611686018427391 (-9)) ["memory"; "Pod"; "max"]])
    by (vm_compute; reflexivity).
  rewrite Ecode, Espec in H. apply Permutation_singleton_inj in H. discriminate H.
Qed.

(** ** The resources-per-scrape observation *)

Lemma sends_are_sends (ms : list Metric) : Forall is_send (EvSend <$> ms).
Proof. apply Forall_fmap, Forall_true. intros m. exact I. Qed.

Lemma only_sends_observations kind (tr : list Event) :
  Forall is_send tr -> observations kind tr = [].
Proof.
  induction 1 as [|e tr He _ IH]; [reflexivity|].
  destruct e; try contradiction. exact IH.
Qed.

Lemma only_sends_scrape_errors kind (tr : list Event) :
  Forall is_send tr -> scrape_errors kind tr = 0%nat.
Proof.
  induction 1 as [|e tr He _ IH]; [reflexivity|].
  destruct e; try contradiction. exact IH.
Qed.

Lemma objects_trace_only_sends rt l k :
  Forall is_send (limitrange.objects_trace rt l k).
Proof.
  revert k. induction l as [|rq l IH]; intros k; [constructor|].
  simpl. apply Forall_app. split; [|apply IH].
  unfold limitrange.object_trace. apply Forall_app. split; [apply sends_are_sends|].
  generalize k. induction (Limits (Spec rq)) as [|item items IHi]; intros k0; [constructor|].
  simpl. apply Forall_app. split; [|apply IHi].
  unfold limitrange.item_trace, limitrange.entries_trace.
  repeat (apply Forall_app; split); apply sends_are_sends.
Qed.

Lemma statuses_trace_only_sends l :
  Forall is_send (componentstatus.statuses_trace l).
Proof.
  unfold componentstatus.statuses_trace.
  induction l as [|s l IH]; [constructor|].
  rewrite bind_cons. apply Forall_app. split; [apply sends_are_sends|exact IH].
Qed.

Lemma observations_scrape kind' kind v (conv : list Event) fmt args :
  Forall is_send conv ->
  observations kind' (EvObserve kind v :: conv ++ [EvLog INFO fmt args])
  = if String.eqb kind kind' then [v] else [].
Proof.
  intros Hconv.
  change (EvObserve kind v :: conv ++ [EvLog INFO fmt args])
    with ([EvObserve kind v] ++ conv ++ [EvLog INFO fmt args]).
  rewrite !observations_app, (only_sends_observations _ _ Hconv). simpl.
  destruct (String.eqb kind kind'); reflexivity.
Qed.

Lemma scrape_errors_scrape kind' kind v (conv : list Event) fmt args :
  Forall is_send conv ->
  scrape_errors kind' (EvObserve kind v :: conv ++ [EvLog INFO fmt args]) = 0%nat.
Proof.
  intros Hconv.
  change (scrape_errors kind' (conv ++ [EvLog INFO fmt args]) = 0%nat).
  rewrite scrape_errors_app, (only_sends_scrape_errors _ _ Hconv). reflexivity.
Qed.

(** C8: when the lister returns a snapshot of N objects with a nil
    error, the first event of the scrape is the observation of float64(N)
    in the resources-per-scrape summary of the collector's kind; the
    events of the loop over the objects' conversion routines come after
    it, then the log line; no other observation is recorded, for any
    kind.  float64(N) denotes N exactly for N up to 2^53. *)
Theorem resource_count_is_observed_first :
  (forall (rt : GoRuntime) (S : Type) (H : limitrange.limitRangeStore S)
          (lrc : limitrange.limitRangeCollector S) (k : nat) l,
      limitrange.store_List (limitrange.store lrc) = (l, None) ->
      let N := Z.of_nat (length (lr_Items l)) in
      exists conv k',
        runs (for_range (lr_Items l)
                (fun rq => limitrange.collectLimitRange rt rq;; mret Next))
             k tt k' conv
        /\ limitrange.Collect rt lrc k
           = {| outcome := Ok tt; ticks := k';
                trace := EvObserve "limitrange" (Float64.of_int N)
                         :: conv ++ [EvLog INFO "collected %d limitranges" [ArgInt N]] |}
        /\ (forall kind, observations kind (trace (limitrange.Collect rt lrc k))
                         = if String.eqb "limitrange" kind
                           then [Float64.of_int N] else [])
        /\ ((N <= 2 ^ 53)%Z -> Float64.represents (Float64.of_int N) (inject_Z N)))
  /\ (forall (S : Type) (H : componentstatus.componentStatusStore S)
             (csc : componentstatus.componentStatusCollector S) (k : nat) l,
      componentstatus.store_List (componentstatus.store csc) = (l, None) ->
      let N := Z.of_nat (length (cs_Items l)) in
      exists conv k',
        runs (for_range (cs_Items l)
                (fun s => componentstatus.collectComponentStatus s;; mret Next))
             k tt k' conv
        /\ componentstatus.Collect csc k
           = {| outcome := Ok tt; ticks := k';
                trace := EvObserve "componentstatus" (Float64.of_int N)
                         :: conv ++ [EvLog INFO "collected %d componentstatuses"
                                       [ArgInt N]] |}
        /\ (forall kind, observations kind (trace (componentstatus.Collect csc k))
                         = if String.eqb "componentstatus" kind
                           then [Float64.of_int N] else [])
        /\ ((N <= 2 ^ 53)%Z -> Float64.represents (Float64.of_int N) (inject_Z N))).
Proof.
  split.
  - intros rt S H lrc k l Hl N.
    exists (limitrange.objects_trace rt (lr_Items l) k),
           (k + limitrange.objects_ticks (lr_Items l))%nat.
    pose proof (limitrange_runs.runs_Collect_ok rt lrc l k Hl) as Hrun.
    split; [apply limitrange_runs.runs_objects|]. split; [exact Hrun|]. split.
    + intros kind. rewrite Hrun. simpl trace.
      apply observations_scrape, objects_trace_only_sends.
    + intros HN. apply Float64Facts.of_int_exact. lia.
  - intros S H csc k l Hl N.
    exists (componentstatus.statuses_trace (cs_Items l)), k.
    pose proof (componentstatus_runs.runs_components_ok csc l k Hl) as Hrun.
    split; [apply componentstatus_runs.runs_statuses|]. split; [exact Hrun|]. split.
    + intros kind. rewrite Hrun. simpl trace.
      apply observations_scrape, statuses_trace_only_sends.
    + intros HN. apply Float64Facts.of_int_exact. lia.
Qed.

Lemma resource_count_is_observed_first_witness :
  observations "limitrange" (trace (limitrange.Collect rt_sorted lrc_small 0))
  = [Float64.of_int 1]
  /\ observations "componentstatus" (trace (componentstatus.Collect csc_two 0))
     = [Float64.of_int 2].
Proof.
  split.
  - destruct (proj1 resource_count_is_observed_first rt_sorted _ _ lrc_small 0%nat
                {| lr_Items := [lr_small] |} eq_refl) as (conv & k' & _ & _ & Hobs & _).
    exact (Hobs "limitrange").
  - destruct (proj2 resource_count_is_observed_first _ _ csc_two 0%nat
                {| cs_Items := [scheduler; etcd0] |} eq_refl) as (conv & k' & _ & _ & Hobs & _).
    exact (Hobs "componentstatus").
Defined.

(** ** Scraping twice *)

(** Replace a run by what it is known to be, wherever it occurs. *)
Ltac run_as E :=
  match type of E with
  | runs ?m ?k _ _ _ =>
      let r := fresh "r" in
      let Er := fresh "Er" in
      let E' := fresh "E" in
      remember (m k) as r eqn:Er;
      pose proof E as E'; unfold runs in E'; rewrite E' in Er; clear E'; subst r
  end.

(** *** The order the source fixes *)

Lemma arranged_app (ms1 ms2 : list Metric) (B1 B2 : list (list Metric)) :
  limitrange.arranged ms1 B1 -> limitrange.arranged ms2 B2 ->
  limitrange.arranged (ms1 ++ ms2) (B1 ++ B2).
Proof.
  intros (bs1 & -> & H1) (bs2 & -> & H2). exists (bs1 ++ bs2). split.
  - symmetry. apply concat_app.
  - apply Forall2_app; assumption.
Qed.

Lemma arranged_block (ms b : list Metric) :
  ms ≡ₚ b -> limitrange.arranged ms [b].
Proof.
  intros Hp. exists [ms]. split.
  - simpl. symmetry. apply app_nil_r.
  - constructor; [exact Hp | constructor].
Qed.

Lemma arranged_item rt rq item k :
  limitrange.arranged (sent (limitrange.item_trace rt rq item k))
    (limitrange.item_blocks rq item).
Proof.
  unfold limitrange.item_trace.
  rewrite !sent_app, !limitrange_samples.sent_entries.
  change (limitrange.item_blocks rq item)
    with ([limitrange.entry_sample limitrange.code_units rq item limitrange.CMin
             <$> map_to_list (Min item)]
          ++ [limitrange.entry_sample limitrange.code_units rq item limitrange.CMax
                <$> map_to_list (Max item)]
          ++ [limitrange.entry_sample limitrange.code_units rq item limitrange.CDefault
                <$> map_to_list (Default item)]
          ++ [limitrange.entry_sample limitrange.code_units rq item
                limitrange.CDefaultRequest <$> map_to_list (DefaultRequest item)]
          ++ [limitrange.entry_sample limitrange.code_units rq item
                limitrange.CMaxLimitRequestRatio
                <$> map_to_list (MaxLimitRequestRatio item)]).
  repeat apply arranged_app; apply arranged_block, fmap_Permutation, mapiter_perm.
Qed.

Lemma arranged_limits rt rq items k :
  limitrange.arranged (sent (limitrange.limits_trace rt rq items k))
    (items ≫= limitrange.item_blocks rq).
Proof.
  revert k. induction items as [|item items IH]; intros k.
  - exists []. split; [reflexivity | constructor].
  - simpl limitrange.limits_trace. rewrite sent_app, bind_cons.
    apply arranged_app; [apply arranged_item | apply IH].
Qed.

Lemma arranged_object rt rq k :
  limitrange.arranged (sent (limitrange.object_trace rt rq k))
    (limitrange.object_blocks rq).
Proof.
  rewrite limitrange_samples.sent_object.
  change (limitrange.object_blocks rq)
    with ([limitrange.created_samples rq]
          ++ (Limits (Spec rq) ≫= limitrange.item_blocks rq)).
  apply arranged_app; [apply arranged_block; reflexivity | apply arranged_limits].
Qed.

Lemma arranged_objects rt (l : list LimitRange) k :
  limitrange.arranged (sent (limitrange.objects_trace rt l k))
    (limitrange.snapshot_blocks l).
Proof.
  revert k. induction l as [|rq l IH]; intros k.
  - exists []. split; [reflexivity | constructor].
  - simpl limitrange.objects_trace. unfold limitrange.snapshot_blocks.
    rewrite sent_app, bind_cons.
    apply arranged_app; [apply arranged_object | apply IH].
Qed.

Lemma blocks_of_same_shape (bs1 bs2 B : list (list Metric)) :
  Forall2 (≡ₚ) bs1 B -> Forall2 (≡ₚ) bs2 B -> Forall2 (≡ₚ) bs1 bs2.
Proof.
  intros H1. revert bs2. induction H1 as [|b1 b bs1 B Hb _ IH]; intros bs2 H2.
  - inversion H2. constructor.
  - inversion H2 as [|b2 b' bs2' B' Hb2 Hrest]; subst.
    constructor; [|apply IH; exact Hrest].
    transitivity b; [exact Hb | symmetry; exact Hb2].
Qed.

(** C9, as the code has it: a second scrape of a fixed lister result,
    right after a first, ends as the first did and records the same
    observations and errors.  The componentstatus collector repeats the
    first run event for event.  The limitrange collector sends on both
    scrapes the same blocks of samples in the same order (object by
    object in snapshot order; within an object the creation gauge, then
    limit item by limit item, and within an item the five constraint maps
    in the order of the source); only the samples inside the block of one
    map may come in another order the second time, for the runtime picks
    the order of every map iteration afresh.  So the two scrapes send the
    same samples, each as often. *)
Theorem second_scrape_sends_same_samples :
  (forall (rt : GoRuntime) (S : Type) (H : limitrange.limitRangeStore S)
          (lrc : limitrange.limitRangeCollector S) (k : nat),
      let first := limitrange.Collect rt lrc k in
      let second := limitrange.Collect rt lrc (ticks first) in
      outcome first = Ok tt /\ outcome second = Ok tt
      /\ sent (trace first) ≡ₚ sent (trace second)
      /\ (forall kind, observations kind (trace first) = observations kind (trace second))
      /\ (forall kind, scrape_errors kind (trace first) = scrape_errors kind (trace second))
      /\ exists bs1 bs2 : list (list Metric),
           sent (trace first) = concat bs1
           /\ sent (trace second) = concat bs2
           /\ Forall2 (≡ₚ) bs1 bs2
           /\ Forall2 (≡ₚ) bs1
                (limitrange.due_blocks (limitrange.store_List (limitrange.store lrc)))
           /\ Forall2 (≡ₚ) bs2
                (limitrange.due_blocks (limitrange.store_List (limitrange.store lrc))))
  /\ (forall (S : Type) (H : componentstatus.componentStatusStore S)
             (csc : componentstatus.componentStatusCollector S) (k : nat),
      let first := componentstatus.Collect csc k in
      let second := componentstatus.Collect csc (ticks first) in
      outcome first = Ok tt /\ second = first).
Proof.
  split.
  - intros rt S H lrc k first second. subst first second.
    destruct (limitrange.store_List (limitrange.store lrc)) as [l [e|]] eqn:Hl.
    + pose proof (limitrange_runs.runs_Collect_err rt lrc l e k Hl) as E.
      run_as E. simpl ticks. run_as E. simpl.
      repeat split; try reflexivity.
      exists [], []. repeat split; constructor.
    + pose proof (limitrange_runs.runs_Collect_ok rt lrc l k Hl) as E1.
      pose proof (limitrange_runs.runs_Collect_ok rt lrc l
                    (k + limitrange.objects_ticks (lr_Items l)) Hl) as E2.
      run_as E1. simpl ticks. run_as E2. simpl outcome. simpl trace.
      split; [reflexivity|]. split; [reflexivity|]. split; [|split; [|split]].
      * rewrite !sent_scrape, !limitrange_samples.sent_objects_perm. reflexivity.
      * intros kind.
        rewrite !observations_scrape by apply objects_trace_only_sends. reflexivity.
      * intros kind.
        rewrite !scrape_errors_scrape by apply objects_trace_only_sends. reflexivity.
      * rewrite !sent_scrape. simpl limitrange.due_blocks.
        destruct (arranged_objects rt (lr_Items l) k) as (bs1 & Hs1 & Hb1).
        destruct (arranged_objects rt (lr_Items l)
                    (k + limitrange.objects_ticks (lr_Items l))) as (bs2 & Hs2 & Hb2).
        exists bs1, bs2. split; [exact Hs1|]. split; [exact Hs2|].
        split; [exact (blocks_of_same_shape _ _ _ Hb1 Hb2)|]. split; assumption.
  - intros S H csc k first second. subst first second.
    destruct (componentstatus.store_List (componentstatus.store csc)) as [l [e|]] eqn:Hl.
    + pose proof (componentstatus_runs.runs_components_err csc l e k Hl) as E.
      run_as E. simpl ticks. run_as E. split; reflexivity.
    + pose proof (componentstatus_runs.runs_components_ok csc l k Hl) as E.
      run_as E. simpl ticks. run_as E. split; reflexivity.
Qed.

(** C9, as it is worded, fails: with a runtime that visits maps
    forwards and backwards in turn, the second scrape of a LimitRange with
    two minima sends them in the other order. *)
Lemma second_scrape_may_reorder : ~ claims.second_scrape_in_same_order.
Proof.
  intros H. specialize (H rt_alternating lrc_small 0%nat).
  vm_compute in H. discriminate H.
Qed.

(* ================================================================== *)
(** * Part IV: further properties of the collectors *)
(* ================================================================== *)

Import shapes examples2.

(** ** Where a sample comes from *)

(** What a scrape of the limitrange collector sends, by the result of
    its lister. *)
Lemma sent_limitrange_scrape (rt : GoRuntime) {S : Type} `{!limitrange.limitRangeStore S}
    (lrc : limitrange.limitRangeCollector S) (k : nat) :
  outcome (limitrange.Collect rt lrc k) = Ok tt
  /\ sent (trace (limitrange.Collect rt lrc k))
     = match limitrange.store_List (limitrange.store lrc) with
       | (l, None) => sent (limitrange.objects_trace rt (lr_Items l) k)
       | (_, Some _) => []
       end.
Proof.
  destruct (limitrange.store_List (limitrange.store lrc)) as [l [e|]] eqn:Hl.
  - rewrite (limitrange_runs.runs_Collect_err rt lrc l e k Hl). split; reflexivity.
  - rewrite (limitrange_runs.runs_Collect_ok rt lrc l k Hl). simpl outcome. simpl trace.
    split; [reflexivity|]. apply sent_scrape.
Qed.

Lemma sent_componentstatus_scrape {S : Type} `{!componentstatus.componentStatusStore S}
    (csc : componentstatus.componentStatusCollector S) (k : nat) :
  outcome (componentstatus.Collect csc k) = Ok tt
  /\ sent (trace (componentstatus.Collect csc k))
     = match componentstatus.store_List (componentstatus.store csc) with
       | (l, None) => cs_Items l ≫= componentstatus.status_samples
       | (_, Some _) => []
       end.
Proof.
  destruct (componentstatus.store_List (componentstatus.store csc)) as [l [e|]] eqn:Hl.
  - rewrite (componentstatus_runs.runs_components_err csc l e k Hl). split; reflexivity.
  - rewrite (componentstatus_runs.runs_components_ok csc l k Hl).
    simpl outcome. simpl trace.
    split; [reflexivity|]. rewrite sent_scrape. apply componentstatus_runs.sent_statuses.
Qed.

Lemma scrape_sample_origin rt (l : list LimitRange) k (m : Metric) :
  m ∈ sent (limitrange.objects_trace rt l k)
  <-> exists rq, rq ∈ l /\ m ∈ limitrange.object_samples rq.
Proof.
  rewrite (limitrange_samples.sent_objects_perm rt l k), list_elem_of_bind.
  split; intros (rq & H1 & H2); exists rq; tauto.
Qed.

(** A sample of an object is its creation gauge or the gauge of one of
    its constraint entries. *)
Lemma object_sample_cases (rq : LimitRange) (m : Metric) :
  m ∈ limitrange.object_samples rq <->
  (IsZero (CreationTimestamp (lr_meta rq)) = false
   /\ m = limitrange.gauge rq limitrange.descLimitRangeCreated
            (Float64.of_int (Unix (CreationTimestamp (lr_meta rq)))) [])
  \/ (exists item c r q,
        item ∈ Limits (Spec rq)
        /\ limitrange.constraint_map c item !! r = Some q
        /\ m = limitrange.entry_sample limitrange.code_units rq item c (r, q)).
Proof.
  unfold limitrange.object_samples, limitrange.limit_samples, limitrange.created_samples.
  rewrite elem_of_app, list_elem_of_bind. split.
  - intros [Hc|(item & Hm & Hitem)].
    + left. destruct (IsZero _); [inversion Hc|].
      apply list_elem_of_singleton in Hc. auto.
    + right. apply list_elem_of_bind in Hm as (c & Hm & _).
      apply list_elem_of_fmap in Hm as ([r q] & -> & Hkv).
      apply elem_of_map_to_list in Hkv. exists item, c, r, q. auto.
  - intros [[Hz ->]|(item & c & r & q & Hitem & Hq & ->)].
    + left. rewrite Hz. apply list_elem_of_singleton. reflexivity.
    + right. exists item. split; [|exact Hitem].
      apply list_elem_of_bind. exists c. split.
      * apply list_elem_of_fmap. exists (r, q). split; [reflexivity|].
        apply elem_of_map_to_list. exact Hq.
      * destruct c; unfold limitrange.all_constraints; set_solver.
Qed.

(** ** Declared descriptors *)

(** Whatever its lister returns and in whatever order maps are visited,
    a collector sends samples of the descriptors its [Describe] declares
    and of no other. *)
Theorem only_declared_descriptors_are_collected :
  (forall (rt : GoRuntime) (S : Type) (H : limitrange.limitRangeStore S)
          (lrc : limitrange.limitRangeCollector S) (k : nat) (m : Metric),
      m ∈ sent (trace (limitrange.Collect rt lrc k)) ->
      desc m ∈ limitrange.Describe)
  /\ (forall (S : Type) (H : componentstatus.componentStatusStore S)
             (csc : componentstatus.componentStatusCollector S) (k : nat) (m : Metric),
      m ∈ sent (trace (componentstatus.Collect csc k)) ->
      desc m ∈ componentstatus.Describe).
Proof.
  split.
  - intros rt S H lrc k m Hm.
    rewrite (proj2 (sent_limitrange_scrape rt lrc k)) in Hm.
    destruct (limitrange.store_List (limitrange.store lrc)) as [l [e|]];
      [inversion Hm|].
    apply scrape_sample_origin in Hm as (rq & _ & Hm).
    apply object_sample_cases in Hm as [[_ ->]|(item & c & r & q & _ & _ & ->)];
      unfold limitrange.Describe; simpl; set_solver.
  - intros S H csc k m Hm.
    rewrite (proj2 (sent_componentstatus_scrape csc k)) in Hm.
    destruct (componentstatus.store_List (componentstatus.store csc)) as [l [e|]];
      [inversion Hm|].
    apply list_elem_of_bind in Hm as (s & Hm & _).
    destruct (proj1 (Forall_forall _ _) (status_samples_shape s) m Hm) as [-> _].
    unfold componentstatus.Describe. set_solver.
Qed.

Lemma only_declared_descriptors_are_collected_witness :
  desc (limitrange.gauge lr_small limitrange.descLimitRangeCreated
          (Float64.of_int 1500000000) []) ∈ limitrange.Describe.
Proof.
  apply (proj1 only_declared_descriptors_are_collected rt_sorted _ _ lrc_small 0%nat).
  vm_compute. left.
Defined.

(** ** Gauges that carry the identity of their object *)

(** Every sample of a limitrange scrape is a gauge whose first two label
    values are the name and the namespace of an object of the snapshot;
    every sample of a componentstatus scrape is a gauge whose first label
    value is the name of an object of the snapshot and whose second is
    True, False or Unknown. *)
Theorem samples_are_gauges_of_snapshot_objects :
  (forall (rt : GoRuntime) (S : Type) (H : limitrange.limitRangeStore S)
          (lrc : limitrange.limitRangeCollector S) (k : nat) (m : Metric),
      m ∈ sent (trace (limitrange.Collect rt lrc k)) ->
      valType m = GaugeValue
      /\ exists rq,
           rq ∈ lr_Items (limitrange.store_List (limitrange.store lrc)).1
           /\ take 2 (labelValues m) = [Name (lr_meta rq); Namespace (lr_meta rq)])
  /\ (forall (S : Type) (H : componentstatus.componentStatusStore S)
             (csc : componentstatus.componentStatusCollector S) (k : nat) (m : Metric),
      m ∈ sent (trace (componentstatus.Collect csc k)) ->
      valType m = GaugeValue
      /\ exists s status,
           s ∈ cs_Items (componentstatus.store_List (componentstatus.store csc)).1
           /\ labelValues m = [Name (cs_meta s); status]
           /\ componentstatus.tri_state status).
Proof.
  split.
  - intros rt S H lrc k m Hm.
    rewrite (proj2 (sent_limitrange_scrape rt lrc k)) in Hm.
    destruct (limitrange.store_List (limitrange.store lrc)) as [l [e|]];
      [inversion Hm|].
    apply scrape_sample_origin in Hm as (rq & Hrq & Hm).
    apply object_sample_cases in Hm as [[_ ->]|(item & c & r & q & _ & _ & ->)];
      (split; [reflexivity|]); exists rq; split; solve [exact Hrq | reflexivity].
  - intros S H csc k m Hm.
    rewrite (proj2 (sent_componentstatus_scrape csc k)) in Hm.
    destruct (componentstatus.store_List (componentstatus.store csc)) as [l [e|]];
      [inversion Hm|].
    apply list_elem_of_bind in Hm as (s & Hm & Hs).
    unfold componentstatus.status_samples in Hm.
    destruct (List.find _ _) as [p|]; [|inversion Hm].
    unfold componentstatus.healthy_samples, componentstatus.tri_state in *.
    apply elem_of_cons in Hm as [->|Hm]; [|apply elem_of_cons in Hm as [->|Hm];
      [|apply list_elem_of_singleton in Hm as ->]];
      (split; [reflexivity|]); eexists s, _; (split; [exact Hs|]);
      (split; [reflexivity|]); auto.
Qed.

Lemma samples_are_gauges_of_snapshot_objects_witness :
  valType (componentstatus.status_gauge etcd0 Float64.one ConditionFalse) = GaugeValue
  /\ exists s status,
       s ∈ [scheduler; etcd0]
       /\ labelValues (componentstatus.status_gauge etcd0 Float64.one ConditionFalse)
          = [Name (cs_meta s); status]
       /\ componentstatus.tri_state status.
Proof.
  refine (proj2 samples_are_gauges_of_snapshot_objects _ _ csc_two 0%nat
            (componentstatus.status_gauge etcd0 Float64.one ConditionFalse) _).
  vm_compute. do 4 right. left.
Defined.
(** ** float64: whole units *)
Module Float64Whole.
Import Float64 Float64Facts.

Lemma digits2_pos_ge (p : positive) (k : Z) :
  (2 ^ (k - 1) <= Zpos p)%Z -> (k <= Zpos (digits2_pos p))%Z.
Proof.
  intros Hp. destruct (digits2_pos_bounds p) as [_ Hhi].
  destruct (Z.le_gt_cases k (Zpos (digits2_pos p))) as [?|Hgt]; [assumption|].
  assert (2 ^ Zpos (digits2_pos p) <= 2 ^ (k - 1))%Z
    by (apply Z.pow_le_mono_r; lia).
  lia.
Qed.

(** A mantissa of 54 bits whose last bit is 0 loses that bit and nothing
    else. *)
Lemma binary_round_aux_even (s : bool) (m : positive) (e : Z) :
  Zpos (digits2_pos m) = 53%Z -> (-1075 <= e <= 970)%Z ->
  binary_round_aux prec emax s (Zpos m~0) e loc_Exact = S754_finite s m (e + 1).
Proof.
  intros Hd He.
  assert (Hs1 : shr_fexp prec emax (Zpos m~0) e loc_Exact
                = ({| shr_m := Zpos m; shr_r := false; shr_s := false |}, (e + 1)%Z)).
  { unfold shr_fexp, fexp, emin, prec, emax. simpl Zdigits2.
    rewrite Pos2Z.inj_succ, Hd.
    replace (Z.max (Z.succ 53 + e - 53) (3 - 1024 - 53) - e)%Z with 1%Z by lia.
    reflexivity. }
  assert (Hs2 : shr_fexp prec emax (Zpos m) (e + 1) loc_Exact
                = ({| shr_m := Zpos m; shr_r := false; shr_s := false |}, (e + 1)%Z)).
  { unfold shr_fexp, fexp, emin, prec, emax. simpl Zdigits2. rewrite Hd.
    replace (Z.max (53 + (e + 1) - 53) (3 - 1024 - 53) - (e + 1))%Z with 0%Z by lia.
    reflexivity. }
  unfold binary_round_aux. rewrite Hs1. simpl. rewrite Hs2. simpl.
  unfold prec, emax.
  destruct (Z.leb_spec (e + 1) (1024 - 53)); [reflexivity | lia].
Qed.

Lemma digits_times_1000 (p : positive) :
  let dp := Zpos (digits2_pos p) in
  let d := Zpos (digits2_pos (1000 * p)) in
  d = (dp + 9)%Z \/ d = (dp + 10)%Z.
Proof.
  intros dp d. destruct (digits2_pos_bounds p) as [Hlo Hhi]. fold dp in Hlo, Hhi.
  assert (Hdp : (1 <= dp)%Z) by (unfold dp; lia).
  assert (Hle : (d <= dp + 10)%Z).
  { apply digits2_pos_le; [lia|].
    rewrite Z.pow_add_r by lia. change (2 ^ 10)%Z with 1024%Z.
    rewrite Pos2Z.inj_mul. set (a := (2 ^ dp)%Z) in *. lia. }
  assert (Hge : (dp + 9 <= d)%Z).
  { apply digits2_pos_ge.
    replace (dp + 9 - 1)%Z with ((dp - 1) + 9)%Z by lia.
    rewrite Z.pow_add_r by lia. change (2 ^ 9)%Z with 512%Z.
    rewrite Pos2Z.inj_mul. set (a := (2 ^ (dp - 1))%Z) in *. lia. }
  lia.
Qed.

(** Dividing 1000 p by 1000 at full precision gives the float64 of p. *)
Lemma round_quot_whole (s : bool) (p : positive) :
  (Zpos (1000 * p) <= 2 ^ 53)%Z ->
  SFdiv prec emax (S754_finite s (1000 * p) 0) (S754_finite false 1000 0)
  = binary_round prec emax s p 0.
Proof.
  intros Hb.
  destruct (digits2_pos_bounds p) as [Hlo Hhi].
  set (dp := Zpos (digits2_pos p)) in *.
  assert (Hdp1 : (1 <= dp)%Z) by (unfold dp; lia).
  assert (Hdp : (dp <= 44)%Z).
  { destruct (Z.le_gt_cases dp 44) as [?|Hgt]; [assumption|].
    assert (2 ^ 44 <= 2 ^ (dp - 1))%Z by (apply Z.pow_le_mono_r; lia).
    rewrite Pos2Z.inj_mul in Hb. change (2 ^ 44)%Z with 17592186044416%Z in *.
    change (2 ^ 53)%Z with 9007199254740992%Z in Hb. lia. }
  assert (Hd53 : (dp <= 53)%Z) by lia.
  rewrite (binary_round_normal s p Hd53). fold dp.
  destruct (normal_mantissa_spec p Hd53) as [Hv Hn]. fold dp in Hv.
  unfold SFdiv, SFdiv_core_binary.
  change (Zdigits2 (Zpos (1000 * p))) with (Zpos (digits2_pos (1000 * p))).
  change (Zdigits2 1000) with 10%Z.
  set (d := Zpos (digits2_pos (1000 * p))).
  assert (Hd : d = (dp + 9)%Z \/ d = (dp + 10)%Z) by apply digits_times_1000.
  unfold fexp, emin, prec, emax.
  replace (Z.min (Z.max (d + 0 - (10 + 0) - 53) (3 - 1024 - 53)) (0 - 0))%Z
    with (d - 63)%Z by lia.
  replace (0 - 0 - (d - 63))%Z with (63 - d)%Z by lia.
  destruct (63 - d)%Z as [|j|j] eqn:Ej; try lia.
  rewrite Z.shiftl_mul_pow2 by lia. rewrite <- Ej.
  rewrite div_eucl_div_mod.
  rewrite Pos2Z.inj_mul.
  replace (1000 * Zpos p * 2 ^ (63 - d))%Z with ((Zpos p * 2 ^ (63 - d)) * 1000)%Z by lia.
  rewrite Z.div_mul by lia. rewrite Z.mod_mul by lia.
  change (new_location 1000 0) with loc_Exact.
  destruct Hd as [Hd|Hd].
  - (* the quotient has 54 bits *)
    replace (63 - d)%Z with (Z.succ (53 - dp)) by lia.
    rewrite Z.pow_succ_r by lia.
    replace (Zpos p * (2 * 2 ^ (53 - dp)))%Z with (2 * (Zpos p * 2 ^ (53 - dp)))%Z by lia.
    rewrite <- Hv. change (2 * Zpos (normal_mantissa p))%Z with (Zpos (normal_mantissa p)~0).
    rewrite xorb_false_r. change 53%Z with prec at 1. change 1024%Z with emax.
    rewrite (binary_round_aux_even s _ (d - 63) Hn) by lia.
    f_equal. lia.
  - replace (63 - d)%Z with (53 - dp)%Z by lia.
    rewrite <- Hv.
    rewrite xorb_false_r. change 53%Z with prec at 1. change 1024%Z with emax.
    rewrite (binary_round_aux_canonical s _ (d - 63) Hn) by lia.
    f_equal. lia.
Qed.

(** [float64(m) / 1000] for a whole number of units [m = 1000 n] within
    the mantissa is the float64 of [n], which denotes [n] exactly. *)
Lemma div_whole_units (m : Z) :
  (m mod 1000 = 0)%Z -> (Z.abs m <= 2 ^ 53)%Z ->
  div (of_int m) (of_int 1000) = of_int (m / 1000)
  /\ represents (of_int (m / 1000)) (inject_Z (m / 1000)).
Proof.
  intros Hmod Hb.
  assert (Hm : m = (1000 * (m / 1000))%Z).
  { rewrite (Z.div_mod m 1000) at 1 by lia. lia. }
  set (n := (m / 1000)%Z) in *.
  split.
  - rewrite div_of_int_1000 by exact Hb. rewrite Hm.
    unfold round_quot, of_int, binary_normalize.
    destruct n as [|p|p]; [reflexivity| |].
    + change (exact_int (1000 * Zpos p)) with (S754_finite false (1000 * p) 0).
      apply round_quot_whole. rewrite Hm in Hb. lia.
    + change (exact_int (1000 * Zneg p)) with (S754_finite true (1000 * p) 0).
      apply round_quot_whole. rewrite Hm in Hb. lia.
  - apply of_int_exact. lia.
Qed.

End Float64Whole.

(** ** One sample per constraint entry *)

Lemma sum_list_append (l1 l2 : list nat) :
  sum_list (l1 ++ l2) = (sum_list l1 + sum_list l2)%nat.
Proof. induction l1 as [|n l1 IH]; simpl; lia. Qed.

Lemma entries_length (conv : Z -> spec_float) (rq : LimitRange)
    (item : LimitRangeItem) (cs : list limitrange.Constraint) :
  length (c ← cs; limitrange.entry_sample conv rq item c
                    <$> map_to_list (limitrange.constraint_map c item))
  = sum_list (c ← cs; [size (limitrange.constraint_map c item)]).
Proof.
  induction cs as [|c cs IHc]; [reflexivity|].
  rewrite !bind_cons, length_app, sum_list_append, IHc.
  rewrite length_fmap, length_map_to_list. simpl. lia.
Qed.

Lemma limit_samples_length (conv : Z -> spec_float) (rq : LimitRange) :
  length (limitrange.limit_samples conv rq) = entry_count rq.
Proof.
  unfold limitrange.limit_samples, entry_count.
  induction (Limits (Spec rq)) as [|item items IH]; [reflexivity|].
  rewrite !bind_cons, length_app, sum_list_append, IH. f_equal.
  apply entries_length.
Qed.

(** Whatever the magnitude of its quantities and the order in which its
    maps are visited, an object sends one [kube_limitrange] sample for
    each entry of each constraint map of each limit item, of value
    [float64(milli) / 1000], and no other; with the creation gauge, if
    there is one, that makes one more sample than the object has
    constraint entries. *)
Theorem every_constraint_entry_yields_one_sample (rt : GoRuntime) (rq : LimitRange) (k : nat) :
  let ms := sent (trace (limitrange.collectLimitRange rt rq k)) in
  (forall m, m ∈ of_family limitrange.descLimitRange ms <->
     exists item c r q,
       item ∈ Limits (Spec rq)
       /\ limitrange.constraint_map c item !! r = Some q
       /\ m = limitrange.entry_sample limitrange.code_units rq item c (r, q))
  /\ length (of_family limitrange.descLimitRange ms) = entry_count rq
  /\ length ms
     = ((if IsZero (CreationTimestamp (lr_meta rq)) then 0 else 1) + entry_count rq)%nat.
Proof.
  intros ms. subst ms.
  pose proof (limit_family_of_run rt rq k) as Hfam.
  split; [|split].
  - intros m. rewrite Hfam. unfold limitrange.limit_samples.
    rewrite list_elem_of_bind. split.
    + intros (item & Hm & Hitem).
      apply list_elem_of_bind in Hm as (c & Hm & _).
      apply list_elem_of_fmap in Hm as ([r q] & -> & Hkv).
      apply elem_of_map_to_list in Hkv. exists item, c, r, q. auto.
    + intros (item & c & r & q & Hitem & Hq & ->).
      exists item. split; [|exact Hitem].
      apply list_elem_of_bind. exists c. split.
      * apply list_elem_of_fmap. exists (r, q). split; [reflexivity|].
        apply elem_of_map_to_list. exact Hq.
      * destruct c; unfold limitrange.all_constraints; set_solver.
  - rewrite Hfam. apply limit_samples_length.
  - rewrite (limitrange_runs.runs_collectLimitRange rt rq k). simpl trace.
    rewrite (limitrange_samples.sent_object_perm rt rq k).
    unfold limitrange.object_samples. rewrite length_app, limit_samples_length.
    unfold limitrange.created_samples. destruct (IsZero _); reflexivity.
Qed.

(** ** An order that does not depend on the runtime *)

Lemma short_list_perm_eq {A : Type} (l1 l2 : list A) :
  (length l2 <= 1)%nat -> l1 ≡ₚ l2 -> l1 = l2.
Proof.
  intros Hlen Hp. destruct l2 as [|x [|y l2]]; simpl in Hlen; [| |lia].
  - apply Permutation_nil_r. exact Hp.
  - apply Permutation_singleton_r. exact Hp.
Qed.

Lemma mapiter_single (rt : GoRuntime) (k : nat) (m : ResourceList) :
  (size m <= 1)%nat -> mapiter rt k m = map_to_list m.
Proof.
  intros Hs. apply short_list_perm_eq; [|apply mapiter_perm].
  rewrite length_map_to_list. exact Hs.
Qed.

(** Where no constraint map of an object has more than one entry, the
    routine causes the same events in the same order under every
    runtime and from every iteration count: there is no order to pick. *)
Theorem single_entry_maps_fix_the_order (rt1 rt2 : GoRuntime) (rq : LimitRange) (k1 k2 : nat) :
  single_entries rq ->
  trace (limitrange.collectLimitRange rt1 rq k1)
  = trace (limitrange.collectLimitRange rt2 rq k2).
Proof.
  intros Hsingle.
  rewrite (limitrange_runs.runs_collectLimitRange rt1 rq k1).
  rewrite (limitrange_runs.runs_collectLimitRange rt2 rq k2). simpl trace.
  unfold limitrange.object_trace. f_equal.
  unfold single_entries in Hsingle. revert k1 k2.
  induction Hsingle as [|item items Hitem _ IH]; intros k1 k2; [reflexivity|].
  simpl limitrange.limits_trace. f_equal; [|apply IH].
  unfold limitrange.all_constraints in Hitem.
  rewrite !Forall_cons in Hitem.
  destruct Hitem as (H1 & H2 & H3 & H4 & H5 & _). simpl in H1, H2, H3, H4, H5.
  unfold limitrange.item_trace.
  rewrite !mapiter_single by assumption. reflexivity.
Qed.

Lemma lr_pod_single_entries : single_entries lr_pod.
Proof.
  unfold single_entries, lr_pod, Spec, Limits.
  repeat constructor.
  all: unfold limitrange.constraint_map, pod_limits,
         Min, Max, Default, DefaultRequest, MaxLimitRequestRatio.
  all: rewrite ?map_size_singleton, ?map_size_empty; lia.
Defined.

Lemma single_entry_maps_fix_the_order_witness :
  trace (limitrange.collectLimitRange rt_sorted lr_pod 0)
  = trace (limitrange.collectLimitRange rt_alternating lr_pod 1).
Proof.
  apply (single_entry_maps_fix_the_order rt_sorted rt_alternating lr_pod 0 1).
  exact lr_pod_single_entries.
Defined.

(** ** Creation gauges of a scrape *)

Lemma of_family_app d (l1 l2 : list Metric) :
  of_family d (l1 ++ l2) = of_family d l1 ++ of_family d l2.
Proof. apply filter_app. Qed.

Lemma created_of_objects rt (l : list LimitRange) k :
  of_family limitrange.descLimitRangeCreated (sent (limitrange.objects_trace rt l k))
  = l ≫= limitrange.created_samples.
Proof.
  revert k. induction l as [|rq l IH]; intros k; [reflexivity|].
  simpl limitrange.objects_trace. rewrite sent_app, of_family_app.
  rewrite limitrange_samples.family_created, IH. reflexivity.
Qed.

(** The [kube_limitrange_created] samples of a scrape are, in the order
    of the snapshot and under every runtime, one for each object whose
    creation timestamp is set, of value the float64 of its Unix seconds. *)
Theorem creation_gauges_follow_the_snapshot
    (rt : GoRuntime) (S : Type) (H : limitrange.limitRangeStore S)
    (lrc : limitrange.limitRangeCollector S) (k : nat) (l : LimitRangeList) :
  limitrange.store_List (limitrange.store lrc) = (l, None) ->
  of_family limitrange.descLimitRangeCreated (sent (trace (limitrange.Collect rt lrc k)))
  = (rq ← List.filter (fun rq => negb (IsZero (CreationTimestamp (lr_meta rq))))
            (lr_Items l);
     [limitrange.gauge rq limitrange.descLimitRangeCreated
        (Float64.of_int (Unix (CreationTimestamp (lr_meta rq)))) []]).
Proof.
  intros Hl. rewrite (proj2 (sent_limitrange_scrape rt lrc k)), Hl.
  rewrite created_of_objects.
  induction (lr_Items l) as [|rq items IH]; [reflexivity|].
  rewrite bind_cons, IH. unfold limitrange.created_samples. simpl List.filter.
  destruct (IsZero _); reflexivity.
Qed.

Lemma creation_gauges_follow_the_snapshot_witness :
  of_family limitrange.descLimitRangeCreated
    (sent (trace (limitrange.Collect rt_alternating lrc_pair 3)))
  = [limitrange.gauge lr_small limitrange.descLimitRangeCreated
       (Float64.of_int 1500000000) [];
     limitrange.gauge lr_pod limitrange.descLimitRangeCreated
       (Float64.of_int 1500000000) []].
Proof.
  apply (creation_gauges_follow_the_snapshot rt_alternating _ _ lrc_pair 3%nat
           {| lr_Items := [lr_small; lr_pod] |}).
  reflexivity.
Defined.

(** ** Scraping a registered collector *)

(** A collector as registration builds it never counts a scrape error,
    whatever the state of its informer, synchronized or not: every
    scrape ends normally, observes the number of objects the informer's
    store holds at that instant and sends the samples of exactly those
    objects. *)
Theorem registered_collectors_never_report_errors :
  (forall (rt : GoRuntime) (rqinf : cache.SharedInformer LimitRange) (k : nat),
      let r := limitrange.Collect rt (limitrange.RegisterLimitRangeCollector rqinf) k in
      outcome r = Ok tt
      /\ (forall kind, scrape_errors kind (trace r) = 0%nat)
      /\ observations "limitrange" (trace r)
         = [Float64.of_int (Z.of_nat (length (cache.GetStore_List rqinf)))]
      /\ sent (trace r) ≡ₚ cache.GetStore_List rqinf ≫= limitrange.object_samples)
  /\ (forall (sinf : cache.SharedInformer ComponentStatus) (k : nat),
      let r := componentstatus.Collect
                 (componentstatus.RegisterComponentStatusCollector sinf) k in
      outcome r = Ok tt
      /\ (forall kind, scrape_errors kind (trace r) = 0%nat)
      /\ observations "componentstatus" (trace r)
         = [Float64.of_int (Z.of_nat (length (cache.GetStore_List sinf)))]
      /\ sent (trace r) = cache.GetStore_List sinf ≫= componentstatus.status_samples).
Proof.
  split.
  - intros rt rqinf k r. subst r.
    assert (Hl : limitrange.store_List
                   (limitrange.store (limitrange.RegisterLimitRangeCollector rqinf))
                 = ({| lr_Items := cache.GetStore_List rqinf |}, None)).
    { unfold limitrange.store_List, limitrange.LimitRangeLister_List. simpl.
      unfold limitrange.limitRangeLister. f_equal.
      apply (collect_items Build_LimitRangeList lr_Items _ (fun _ => eq_refl) []). }
    pose proof (limitrange_runs.runs_Collect_ok rt _ _ k Hl) as E. run_as E.
    simpl outcome. simpl trace. simpl lr_Items.
    split; [reflexivity|]. split; [|split].
    + intros kind. apply scrape_errors_scrape, objects_trace_only_sends.
    + rewrite observations_scrape by apply objects_trace_only_sends. reflexivity.
    + rewrite sent_scrape. apply limitrange_samples.sent_objects_perm.
  - intros sinf k r. subst r.
    assert (Hl : componentstatus.store_List
                   (componentstatus.store
                      (componentstatus.RegisterComponentStatusCollector sinf))
                 = ({| cs_Items := cache.GetStore_List sinf |}, None)).
    { unfold componentstatus.store_List, componentstatus.ComponentStatusLister_List.
      simpl. unfold componentstatus.componentStatusLister. f_equal.
      apply (collect_items Build_ComponentStatusList cs_Items _ (fun _ => eq_refl) []). }
    pose proof (componentstatus_runs.runs_components_ok _ _ k Hl) as E. run_as E.
    simpl outcome. simpl trace. simpl cs_Items.
    split; [reflexivity|]. split; [|split].
    + intros kind. apply scrape_errors_scrape, statuses_trace_only_sends.
    + rewrite observations_scrape by apply statuses_trace_only_sends. reflexivity.
    + rewrite sent_scrape. apply componentstatus_runs.sent_statuses.
Qed.

(** ** Every scrape is accounted for once *)

(** Whatever the lister returns, a scrape leaves exactly one mark in the
    scrape statistics of its own kind, an error or an observation and
    never both, and no mark in those of any other kind. *)
Theorem every_scrape_is_accounted_once :
  (forall (rt : GoRuntime) (S : Type) (H : limitrange.limitRangeStore S)
          (lrc : limitrange.limitRangeCollector S) (k : nat) (kind : string),
      let r := limitrange.Collect rt lrc k in
      (scrape_errors kind (trace r) + length (observations kind (trace r)))%nat
      = if String.eqb "limitrange" kind then 1%nat else 0%nat)
  /\ (forall (S : Type) (H : componentstatus.componentStatusStore S)
             (csc : componentstatus.componentStatusCollector S) (k : nat) (kind : string),
      let r := componentstatus.Collect csc k in
      (scrape_errors kind (trace r) + length (observations kind (trace r)))%nat
      = if String.eqb "componentstatus" kind then 1%nat else 0%nat).
Proof.
  split.
  - intros rt S H lrc k kind r. subst r.
    destruct (limitrange.store_List (limitrange.store lrc)) as [l [e|]] eqn:Hl.
    + destruct (failed_scrape_intro "limitrange" _ _ e k
                  (limitrange_runs.runs_Collect_err rt lrc l e k Hl))
        as (_ & Herr & _ & Hobs).
      rewrite Herr, Hobs. simpl length.
      destruct (String.eqb "limitrange" kind); reflexivity.
    + rewrite (limitrange_runs.runs_Collect_ok rt lrc l k Hl). simpl trace.
      rewrite scrape_errors_scrape, observations_scrape
        by apply objects_trace_only_sends.
      destruct (String.eqb "limitrange" kind); reflexivity.
  - intros S H csc k kind r. subst r.
    destruct (componentstatus.store_List (componentstatus.store csc)) as [l [e|]] eqn:Hl.
    + destruct (failed_scrape_intro "componentstatus" _ _ e k
                  (componentstatus_runs.runs_components_err csc l e k Hl))
        as (_ & Herr & _ & Hobs).
      rewrite Herr, Hobs. simpl length.
      destruct (String.eqb "componentstatus" kind); reflexivity.
    + rewrite (componentstatus_runs.runs_components_ok csc l k Hl). simpl trace.
      rewrite scrape_errors_scrape, observations_scrape
        by apply statuses_trace_only_sends.
      destruct (String.eqb "componentstatus" kind); reflexivity.
Qed.

(** ** Whole units *)

Lemma limit_samples_whole rq :
  whole_units rq ->
  limitrange.limit_samples limitrange.code_units rq
  = limitrange.limit_samples units_of_milli rq.
Proof.
  unfold whole_units, limitrange.limit_samples.
  induction 1 as [|item items Hitem _ IH]; [reflexivity|].
  rewrite !bind_cons. f_equal; [|exact IH]. clear IH.
  induction Hitem as [|c cs Hc _ IHc]; [reflexivity|].
  rewrite !bind_cons. f_equal; [|exact IHc].
  apply Forall_fmap_ext. apply map_Forall_to_list in Hc.
  eapply Forall_impl; [exact Hc|].
  intros [r q] [Hmod Hb]. unfold limitrange.entry_sample, limitrange.code_units,
    units_of_milli. cbn [fst snd] in *.
  rewrite (proj1 (Float64Whole.div_whole_units _ Hmod Hb)). reflexivity.
Qed.

Lemma every_constraint_is_listed (c : limitrange.Constraint) :
  c ∈ limitrange.all_constraints.
Proof. destruct c; apply list_elem_of_In; simpl; auto 10. Qed.

(** Quantities that are whole numbers of units, of at most 2^53
    milli-units in magnitude, are reported without any rounding: the
    sample of an entry of [1000 n] milli-units is the float64 of [n],
    which denotes [n], the quantity's [MilliValue / 1000], exactly. *)
Theorem whole_units_are_reported_exactly (rt : GoRuntime) (rq : LimitRange) (k : nat) :
  whole_units rq ->
  let ms := of_family limitrange.descLimitRange
              (sent (trace (limitrange.collectLimitRange rt rq k))) in
  ms ≡ₚ limitrange.limit_samples units_of_milli rq
  /\ (forall m, m ∈ ms ->
        exists item c r q,
          item ∈ Limits (Spec rq)
          /\ limitrange.constraint_map c item !! r = Some q
          /\ labelValues m = [Name (lr_meta rq); Namespace (lr_meta rq);
                              r; limit_Type item; limitrange.constraint_label c]
          /\ MilliValue q = (1000 * (MilliValue q / 1000))%Z
          /\ val m = Float64.of_int (MilliValue q / 1000)
          /\ Float64.represents (val m) (inject_Z (MilliValue q / 1000)))
  /\ (forall item c r q,
        item ∈ Limits (Spec rq) ->
        limitrange.constraint_map c item !! r = Some q ->
        limitrange.gauge rq limitrange.descLimitRange
          (Float64.of_int (MilliValue q / 1000))
          [r; limit_Type item; limitrange.constraint_label c] ∈ ms
        /\ Float64.represents (Float64.of_int (MilliValue q / 1000))
             (inject_Z (MilliValue q / 1000))).
Proof.
  intros Hwhole ms.
  assert (Hperm : ms ≡ₚ limitrange.limit_samples units_of_milli rq).
  { subst ms. rewrite <- (limit_samples_whole rq Hwhole). apply limit_family_of_run. }
  assert (Hentry : forall item c r q,
             item ∈ Limits (Spec rq) ->
             limitrange.constraint_map c item !! r = Some q ->
             (MilliValue q mod 1000 = 0)%Z /\ (Z.abs (MilliValue q) <= 2 ^ 53)%Z).
  { intros item c r q Hitem Hq.
    unfold whole_units in Hwhole. rewrite Forall_forall in Hwhole.
    specialize (Hwhole item Hitem). rewrite Forall_forall in Hwhole.
    exact (Hwhole c (every_constraint_is_listed c) r q Hq). }
  split; [exact Hperm|]. split.
  - intros m Hm. rewrite Hperm in Hm. unfold limitrange.limit_samples in Hm.
    apply list_elem_of_bind in Hm as (item & Hm & Hitem).
    apply list_elem_of_bind in Hm as (c & Hm & Hc).
    apply list_elem_of_fmap in Hm as ([r q] & -> & Hkv).
    apply elem_of_map_to_list in Hkv.
    destruct (Hentry item c r q Hitem Hkv) as [Hmod Hb].
    exists item, c, r, q. split; [exact Hitem|]. split; [exact Hkv|].
    split; [reflexivity|]. split.
    + rewrite (Z.div_mod (MilliValue q) 1000) at 1 by lia. lia.
    + split; [reflexivity|].
      exact (proj2 (Float64Whole.div_whole_units _ Hmod Hb)).
  - intros item c r q Hitem Hq.
    destruct (Hentry item c r q Hitem Hq) as [Hmod Hb]. split.
    + rewrite Hperm. unfold limitrange.limit_samples.
      apply list_elem_of_bind. exists item. split; [|exact Hitem].
      apply list_elem_of_bind. exists c. split.
      * apply list_elem_of_fmap. exists (r, q). split; [reflexivity|].
        apply elem_of_map_to_list. exact Hq.
      * apply every_constraint_is_listed.
    + exact (proj2 (Float64Whole.div_whole_units _ Hmod Hb)).
Qed.

Lemma lr_pod_whole_units : whole_units lr_pod.
Proof.
  unfold whole_units, lr_pod, Spec, Limits.
  repeat match goal with |- Forall _ _ => constructor end.
  all: unfold limitrange.constraint_map, pod_limits,
         Min, Max, Default, DefaultRequest, MaxLimitRequestRatio.
  all: first [ apply map_Forall_empty
             | apply map_Forall_singleton; unfold quantity, MilliValue;
               split; [reflexivity | change (2 ^ 53)%Z with 9007199254740992%Z; lia] ].
Defined.

Lemma whole_units_are_reported_exactly_witness :
  limitrange.gauge lr_pod limitrange.descLimitRange (Float64.of_int 4)
    ["cpu"; "Pod"; "max"]
  ∈ of_family limitrange.descLimitRange
      (sent (trace (limitrange.collectLimitRange rt_alternating lr_pod 1)))
  /\ Float64.represents (Float64.of_int 4) (inject_Z 4).
Proof.
  destruct (whole_units_are_reported_exactly rt_alternating lr_pod 1
              lr_pod_whole_units) as (_ & _ & Hentry).
  apply (Hentry pod_limits limitrange.CMax "cpu" (quantity 4000)).
  - left.
  - reflexivity.
Defined.

(** ** No time series is sent twice *)

(** A list of values that differ by a constructor has no duplicates. *)
Ltac distinct_values :=
  repeat (apply NoDup_cons; split;
          [ let Hin := fresh "Hin" in
            intros Hin;
            repeat (apply elem_of_cons in Hin as [Hin|Hin]; [discriminate Hin|]);
            inversion Hin
          | ]);
  apply NoDup_nil; exact I.

(** Lists that are told apart by a key stay apart when they are
    flattened. *)
Lemma NoDup_fmap_bind_key {A B C K : Type} (g : B -> C) (f : A -> list B)
    (key : C -> K) (tag : A -> K) (l : list A) :
  (forall a b, a ∈ l -> b ∈ f a -> key (g b) = tag a) ->
  NoDup (tag <$> l) ->
  (forall a, a ∈ l -> NoDup (g <$> f a)) ->
  NoDup (g <$> (l ≫= f)).
Proof.
  induction l as [|a l IH]; intros Hkey Htag Hin; [constructor|].
  rewrite bind_cons, fmap_app. rewrite fmap_cons in Htag.
  apply NoDup_cons in Htag as [Hfresh Htag].
  apply NoDup_app. split; [|split].
  - apply Hin. left.
  - intros x Hx Hx'.
    apply list_elem_of_fmap in Hx as (b & -> & Hb).
    apply list_elem_of_fmap in Hx' as (b' & Heq & Hb').
    apply list_elem_of_bind in Hb' as (a' & Hb' & Ha').
    apply Hfresh. apply list_elem_of_fmap. exists a'. split; [|exact Ha'].
    rewrite <- (Hkey a b) by (first [left | exact Hb]).
    rewrite Heq. apply Hkey; [right; exact Ha' | exact Hb'].
  - apply IH; [|exact Htag|].
    + intros a' b' Ha' Hb'. apply Hkey; [right; exact Ha' | exact Hb'].
    + intros a' Ha'. apply Hin. right. exact Ha'.
Qed.

Lemma entry_series_distinct conv rq item c :
  NoDup (series <$> (limitrange.entry_sample conv rq item c
                       <$> map_to_list (limitrange.constraint_map c item))).
Proof.
  apply (NoDup_fmap_1 (label_at 2)).
  rewrite <- !list_fmap_compose.
  replace ((label_at 2 ∘ series ∘ limitrange.entry_sample conv rq item c)
             <$> map_to_list (limitrange.constraint_map c item))
    with ((map_to_list (limitrange.constraint_map c item)).*1).
  - apply NoDup_fst_map_to_list.
  - apply Forall_fmap_ext, Forall_true. intros [r q]. reflexivity.
Qed.

Lemma constraint_labels_distinct :
  NoDup (limitrange.constraint_label <$> limitrange.all_constraints).
Proof.
  unfold limitrange.all_constraints. simpl.
  distinct_values.
Qed.

Lemma item_series_distinct conv rq item :
  NoDup (series <$> limitrange.item_samples conv rq item).
Proof.
  unfold limitrange.item_samples.
  apply (NoDup_fmap_bind_key series _ (label_at 4) limitrange.constraint_label).
  - intros c m _ Hm. apply list_elem_of_fmap in Hm as ([r q] & -> & _). reflexivity.
  - apply constraint_labels_distinct.
  - intros c _. apply entry_series_distinct.
Qed.

Lemma limit_series_distinct conv rq :
  distinct_types rq -> NoDup (series <$> limitrange.limit_samples conv rq).
Proof.
  intros Htypes.
  change (limitrange.limit_samples conv rq)
    with (Limits (Spec rq) ≫= limitrange.item_samples conv rq).
  apply (NoDup_fmap_bind_key series _ (label_at 3) limit_Type).
  - intros item m _ Hm. unfold limitrange.item_samples in Hm.
    apply list_elem_of_bind in Hm as (c & Hm & _).
    apply list_elem_of_fmap in Hm as ([r q] & -> & _). reflexivity.
  - exact Htypes.
  - intros item _. apply item_series_distinct.
Qed.

Lemma object_series_distinct rq :
  distinct_types rq -> NoDup (series <$> limitrange.object_samples rq).
Proof.
  intros Htypes. unfold limitrange.object_samples. rewrite fmap_app.
  apply NoDup_app. split; [|split].
  - unfold limitrange.created_samples. destruct (IsZero _); simpl.
    + constructor.
    + apply NoDup_singleton.
  - intros x Hx Hx'.
    apply list_elem_of_fmap in Hx as (m & -> & Hm).
    apply list_elem_of_fmap in Hx' as (m' & Heq & Hm').
    pose proof (proj1 (Forall_forall _ _)
                  (limitrange_samples.created_samples_family rq) m Hm) as Hd.
    unfold limitrange.limit_samples in Hm'.
    apply list_elem_of_bind in Hm' as (item & Hm' & _).
    apply list_elem_of_bind in Hm' as (c & Hm' & _).
    apply list_elem_of_fmap in Hm' as ([r q] & -> & _).
    unfold series in Heq. rewrite Hd in Heq. discriminate Heq.
  - apply limit_series_distinct, Htypes.
Qed.

(** Where the objects of the snapshot differ by name or namespace and no
    object has two limit items of the same type, a scrape of the
    limitrange collector sends no time series (family name and label
    values) twice, whatever the order in which maps are visited. *)
Theorem limitrange_series_are_distinct
    (rt : GoRuntime) (S : Type) (H : limitrange.limitRangeStore S)
    (lrc : limitrange.limitRangeCollector S) (k : nat) (l : LimitRangeList) :
  limitrange.store_List (limitrange.store lrc) = (l, None) ->
  NoDup (object_key <$> lr_Items l) ->
  Forall distinct_types (lr_Items l) ->
  NoDup (series <$> sent (trace (limitrange.Collect rt lrc k))).
Proof.
  intros Hl Hkeys Htypes.
  rewrite (proj2 (sent_limitrange_scrape rt lrc k)), Hl.
  rewrite (limitrange_samples.sent_objects_perm rt (lr_Items l) k).
  apply (NoDup_fmap_bind_key series _ owner object_key).
  - intros rq m _ Hm.
    apply object_sample_cases in Hm as [[_ ->]|(item & c & r & q & _ & _ & ->)];
      reflexivity.
  - exact Hkeys.
  - intros rq Hrq. apply object_series_distinct.
    exact (proj1 (Forall_forall _ _) Htypes rq Hrq).
Qed.

Lemma limitrange_series_are_distinct_witness :
  NoDup (series <$> sent (trace (limitrange.Collect rt_alternating lrc_pair 0))).
Proof.
  apply (limitrange_series_are_distinct rt_alternating _ _ lrc_pair 0%nat
           {| lr_Items := [lr_small; lr_pod] |}).
  - reflexivity.
  - simpl. distinct_values.
  - repeat match goal with |- Forall _ _ => constructor end;
      unfold distinct_types; simpl; apply NoDup_singleton.
Defined.

(** The condition on types is needed: two limit items of one type that
    constrain the same resource in the same way make the routine send the
    same time series twice, whatever the two quantities are. *)
Theorem same_type_twice_repeats_a_series (rt : GoRuntime) (rq : LimitRange)
    (pre mid post : list LimitRangeItem) (item1 item2 : LimitRangeItem)
    (c : limitrange.Constraint) (r : string) (q1 q2 : Quantity) (k : nat) :
  Limits (Spec rq) = pre ++ item1 :: mid ++ item2 :: post ->
  limit_Type item1 = limit_Type item2 ->
  limitrange.constraint_map c item1 !! r = Some q1 ->
  limitrange.constraint_map c item2 !! r = Some q2 ->
  ~ NoDup (series <$> sent (trace (limitrange.collectLimitRange rt rq k))).
Proof.
  intros Hitems Htype Hq1 Hq2 Hnd.
  rewrite (limitrange_runs.runs_collectLimitRange rt rq k) in Hnd. simpl trace in Hnd.
  rewrite (limitrange_samples.sent_object_perm rt rq k) in Hnd.
  unfold limitrange.object_samples in Hnd. rewrite fmap_app in Hnd.
  apply NoDup_app in Hnd as (_ & _ & Hnd).
  change (limitrange.limit_samples limitrange.code_units rq)
    with (Limits (Spec rq) ≫= limitrange.item_samples limitrange.code_units rq) in Hnd.
  rewrite Hitems, bind_app, fmap_app in Hnd.
  apply NoDup_app in Hnd as (_ & _ & Hnd).
  rewrite bind_cons, fmap_app in Hnd.
  apply NoDup_app in Hnd as (_ & Hdisj & _).
  assert (Hin : forall item q,
            limitrange.constraint_map c item !! r = Some q ->
            limitrange.entry_sample limitrange.code_units rq item c (r, q)
            ∈ limitrange.item_samples limitrange.code_units rq item).
  { intros item q Hq. apply list_elem_of_bind. exists c. split.
    - apply list_elem_of_fmap_2. apply elem_of_map_to_list. exact Hq.
    - destruct c; unfold limitrange.all_constraints; set_solver. }
  apply (Hdisj _ (list_elem_of_fmap_2 series _ _ (Hin item1 q1 Hq1))).
  apply list_elem_of_fmap.
  exists (limitrange.entry_sample limitrange.code_units rq item2 c (r, q2)). split.
  - unfold series, limitrange.entry_sample. simpl. rewrite Htype. reflexivity.
  - apply list_elem_of_bind. exists item2. split; [exact (Hin item2 q2 Hq2)|].
    apply elem_of_app. right. left.
Qed.

Lemma same_type_twice_repeats_a_series_witness :
  ~ NoDup (series <$> sent (trace (limitrange.collectLimitRange rt_sorted lr_twice 0))).
Proof.
  apply (same_type_twice_repeats_a_series rt_sorted lr_twice
           [] [] [] container_limits container_floor limitrange.CMin
           "cpu" (quantity 1500) (quantity 100) 0).
  - reflexivity.
  - reflexivity.
  - reflexivity.
  - reflexivity.
Defined.

Lemma status_series_distinct s :
  NoDup (series <$> componentstatus.status_samples s).
Proof.
  unfold componentstatus.status_samples.
  destruct (List.find _ _) as [p|]; [|constructor].
  unfold componentstatus.healthy_samples. simpl.
  distinct_values.
Qed.

(** Where the components of the snapshot have different names, a scrape
    of the componentstatus collector sends no time series twice, even
    when a component has several Healthy conditions. *)
Theorem componentstatus_series_are_distinct
    (S : Type) (H : componentstatus.componentStatusStore S)
    (csc : componentstatus.componentStatusCollector S) (k : nat) (l : ComponentStatusList) :
  componentstatus.store_List (componentstatus.store csc) = (l, None) ->
  NoDup ((fun s => Name (cs_meta s)) <$> cs_Items l) ->
  NoDup (series <$> sent (trace (componentstatus.Collect csc k))).
Proof.
  intros Hl Hnames.
  rewrite (proj2 (sent_componentstatus_scrape csc k)), Hl.
  apply (NoDup_fmap_bind_key series _ (label_at 0) (fun s => Name (cs_meta s))).
  - intros s m _ Hm. unfold componentstatus.status_samples in Hm.
    destruct (List.find _ _) as [p|]; [|inversion Hm].
    unfold componentstatus.healthy_samples in Hm.
    apply elem_of_cons in Hm as [->|Hm]; [reflexivity|].
    apply elem_of_cons in Hm as [->|Hm]; [reflexivity|].
    apply list_elem_of_singleton in Hm as ->. reflexivity.
  - exact Hnames.
  - intros s _. apply status_series_distinct.
Qed.

Lemma componentstatus_series_are_distinct_witness :
  NoDup (series <$> sent (trace (componentstatus.Collect csc_two 0))).
Proof.
  apply (componentstatus_series_are_distinct _ _ csc_two 0%nat
           {| cs_Items := [scheduler; etcd0] |}).
  - reflexivity.
  - simpl. distinct_values.
Defined.

(** ** What the componentstatus routine reads *)

Lemma find_healthy_read (conds conds' : list ComponentCondition) :
  (fun p => (cond_Type p, Status p)) <$> conds
  = (fun p => (cond_Type p, Status p)) <$> conds' ->
  Status <$> List.find componentstatus.is_healthy conds
  = Status <$> List.find componentstatus.is_healthy conds'.
Proof.
  revert conds'. induction conds as [|p conds IH]; intros [|p' conds'] Heq;
    try discriminate Heq; [reflexivity|].
  rewrite !fmap_cons in Heq. injection Heq as Ht Hs Hrest.
  simpl List.find. unfold componentstatus.is_healthy at 1 3. rewrite Ht.
  destruct (String.eqb (cond_Type p') ComponentHealthy); [simpl; f_equal; exact Hs|].
  apply IH, Hrest.
Qed.

(** The routine reads the name of the object and the type and status of
    its conditions, nothing else: two objects that agree on these send
    the same samples, whatever their namespaces, timestamps, and the
    messages and errors of their conditions. *)
Theorem component_samples_depend_on_name_type_status (s s' : ComponentStatus) (k k' : nat) :
  read_of s = read_of s' ->
  sent (trace (componentstatus.collectComponentStatus s k))
  = sent (trace (componentstatus.collectComponentStatus s' k')).
Proof.
  unfold read_of. intros Heq. injection Heq as Hname Hconds.
  rewrite !sent_collectComponentStatus. unfold componentstatus.status_samples.
  pose proof (find_healthy_read _ _ Hconds) as Hfind.
  destruct (List.find _ (Conditions s)) as [p|],
           (List.find _ (Conditions s')) as [p'|]; try discriminate Hfind;
    [|reflexivity].
  injection Hfind as Hst.
  unfold componentstatus.healthy_samples, componentstatus.status_gauge.
  rewrite Hname, Hst. reflexivity.
Qed.

Lemma component_samples_depend_on_name_type_status_witness :
  sent (trace (componentstatus.collectComponentStatus scheduler 0))
  = sent (trace (componentstatus.collectComponentStatus scheduler_reworded 7)).
Proof.
  apply (component_samples_depend_on_name_type_status scheduler scheduler_reworded 0 7).
  reflexivity.
Defined.
